(** * Leader-for-life election: [pkg/leader/leader.go]

    A shallow embedding of the [leader] package and a verification of its
    behaviour.  The package talks to its surroundings only through a handful
    of library calls (the service-account namespace file, the in-cluster
    client configuration, the host name, and the Pods / ConfigMaps clients of
    the Kubernetes API).  Those calls are gathered in an interface [Env]; the
    package's functions are written once, against any implementation of that
    interface, in a small monad that threads the state of the surroundings and
    records every call issued.  The only loop of the package ([for { ... }] in
    [Become]) has no exit condition of its own, so it is run with fuel. *)

From Stdlib Require Import String Ascii List ZArith NArith Lia Bool.
From stdpp Require Import base option list gmap strings.

Local Open Scope string_scope.
Local Open Scope list_scope.

(** ** Go values *)

(** A Go [string] is a sequence of bytes: Rocq's [string]. *)

Module metav1.

Record TypeMeta := {
  APIVersion : string;
  Kind : string
}.

(** [metav1.OwnerReference], with the fields the package sets and reads. *)
Record OwnerReference := {
  RefAPIVersion : string;
  RefKind : string;
  RefName : string;
  RefUID : string
}.

Record ObjectMeta := {
  Name : string;
  Namespace : string;
  UID : string;
  OwnerReferences : list OwnerReference
}.

(** [metav1.StatusReason]: the machine-readable reason of an API failure. *)
Inductive StatusReason :=
| StatusReasonUnknown
| StatusReasonUnauthorized
| StatusReasonForbidden
| StatusReasonNotFound
| StatusReasonAlreadyExists
| StatusReasonConflict
| StatusReasonInvalid
| StatusReasonBadRequest
| StatusReasonServerTimeout
| StatusReasonTimeout
| StatusReasonInternalError
| StatusReasonServiceUnavailable.

End metav1.

Module corev1.

Record Pod := {
  PodMeta : metav1.ObjectMeta
}.

Record ConfigMap := {
  TypeMeta : metav1.TypeMeta;
  ObjectMeta : metav1.ObjectMeta
}.

(** The method [GetOwnerReferences] of a ConfigMap. *)
Definition GetOwnerReferences (cm : ConfigMap) : list metav1.OwnerReference :=
  metav1.OwnerReferences (ObjectMeta cm).

End corev1.

#[global] Instance StatusReason_eq_dec : EqDecision metav1.StatusReason.
Proof. solve_decision. Defined.
#[global] Instance TypeMeta_eq_dec : EqDecision metav1.TypeMeta.
Proof. solve_decision. Defined.
#[global] Instance OwnerReference_eq_dec : EqDecision metav1.OwnerReference.
Proof. solve_decision. Defined.
#[global] Instance ObjectMeta_eq_dec : EqDecision metav1.ObjectMeta.
Proof. solve_decision. Defined.
#[global] Instance Pod_eq_dec : EqDecision corev1.Pod.
Proof. solve_decision. Defined.
#[global] Instance ConfigMap_eq_dec : EqDecision corev1.ConfigMap.
Proof. solve_decision. Defined.

(** ** Errors *)

(** [syscall.Errno], the ones a file read meets. *)
Inductive Errno := ENOENT | EACCES | EISDIR | EIO | EMFILE.

(** The errors the libraries hand to the package: [*os.PathError] from
    [ioutil.ReadFile], [*os.SyscallError] from [os.Hostname],
    [*apierrors.StatusError] from the API clients, and plain errors such as
    [rest.ErrNotInCluster]. *)
Inductive lib_error :=
| PathError (Op Path : string) (Err : Errno)
| SyscallError (Syscall : string) (Err : Errno)
| StatusError (Reason : metav1.StatusReason) (Message : string)
| errorString (s : string).

(** A Go [error] as [leader.go] sees it: its own package variable [ErrNoNS]
    (created by [errors.New], hence a pointer no library can return), or an
    error that came out of a library. *)
Inductive error :=
| ErrNoNS
| LibError (e : lib_error).

#[global] Instance Errno_eq_dec : EqDecision Errno.
Proof. solve_decision. Defined.
#[global] Instance lib_error_eq_dec : EqDecision lib_error.
Proof. solve_decision. Defined.
#[global] Instance error_eq_dec : EqDecision error.
Proof. solve_decision. Defined.

Module os.
(** [os.IsNotExist]. *)
Definition IsNotExist (err : lib_error) : bool :=
  match err with
  | PathError _ _ ENOENT | SyscallError _ ENOENT => true
  | _ => false
  end.
End os.

Module apierrors.
(** [apierrors.ReasonForError]: the reason of an API status error,
    [StatusReasonUnknown] for every other error. *)
Definition ReasonForError (err : lib_error) : metav1.StatusReason :=
  match err with
  | StatusError r _ => r
  | _ => metav1.StatusReasonUnknown
  end.

Definition IsNotFound (err : lib_error) : bool :=
  bool_decide (ReasonForError err = metav1.StatusReasonNotFound).

Definition IsAlreadyExists (err : lib_error) : bool :=
  bool_decide (ReasonForError err = metav1.StatusReasonAlreadyExists).
End apierrors.

(** ** [strings.TrimSpace]

    Go's [strings.TrimSpace] removes the leading and the trailing Unicode
    white space of a UTF-8 string ([unicode.IsSpace]: U+0009..U+000D, U+0020,
    U+0085, U+00A0, U+1680, U+2000..U+200A, U+2028, U+2029, U+202F, U+205F,
    U+3000).  A byte that starts no valid encoding decodes to U+FFFD, which is
    not white space, so trimming stops there.  The model works on the bytes:
    [spaceRune] is the length of the white-space code point a byte sequence
    starts with (0 when it starts with none); [spaceRuneRev] is the same for a
    sequence read backwards from its end. *)

Module strings.

Definition byte (c : ascii) : N := N_of_ascii c.

Definition isAsciiSpace (c : ascii) : bool :=
  ((9 <=? byte c) && (byte c <=? 13) || (byte c =? 32))%N.

(** U+0085 and U+00A0, encoded on two bytes. *)
Definition isSpace2 (c d : ascii) : bool :=
  ((byte c =? 194) && ((byte d =? 133) || (byte d =? 160)))%N.

(** U+1680, U+2000..U+200A, U+2028, U+2029, U+202F, U+205F and U+3000,
    encoded on three bytes. *)
Definition isSpace3 (c d e : ascii) : bool :=
  ((byte c =? 225) && (byte d =? 154) && (byte e =? 128)
   || (byte c =? 226) && (byte d =? 128) &&
      ((128 <=? byte e) && (byte e <=? 138) ||
       (byte e =? 168) || (byte e =? 169) || (byte e =? 175))
   || (byte c =? 226) && (byte d =? 129) && (byte e =? 159)
   || (byte c =? 227) && (byte d =? 128) && (byte e =? 128))%N.

Definition spaceRune (s : list ascii) : nat :=
  match s with
  | c :: d :: e :: _ =>
    if isAsciiSpace c then 1
    else if isSpace2 c d then 2
    else if isSpace3 c d e then 3
    else 0
  | [c; d] =>
    if isAsciiSpace c then 1
    else if isSpace2 c d then 2
    else 0
  | [c] => if isAsciiSpace c then 1 else 0
  | [] => 0
  end.

(** The same test on a sequence given last byte first. *)
Definition spaceRuneRev (s : list ascii) : nat :=
  match s with
  | e :: d :: c :: _ =>
    if isAsciiSpace e then 1
    else if isSpace2 d e then 2
    else if isSpace3 c d e then 3
    else 0
  | [e; d] =>
    if isAsciiSpace e then 1
    else if isSpace2 d e then 2
    else 0
  | [e] => if isAsciiSpace e then 1 else 0
  | [] => 0
  end.

(** Strip white-space code points from the front, at most [n] of them. *)
Fixpoint trimWith (rune : list ascii -> nat) (n : nat) (s : list ascii) : list ascii :=
  match n with
  | O => s
  | S n' =>
    match rune s with
    | O => s
    | k => trimWith rune n' (drop k s)
    end
  end.

Definition trimLeft (s : list ascii) : list ascii :=
  trimWith spaceRune (length s) s.

Definition trimRight (s : list ascii) : list ascii :=
  rev (trimWith spaceRuneRev (length s) (rev s)).

Definition TrimSpace (s : string) : string :=
  string_of_list_ascii (trimRight (trimLeft (list_ascii_of_string s))).

End strings.

(** ** White space, as Unicode has it

    The code points with the White_Space property (the table behind Go's
    [unicode.IsSpace]) and their UTF-8 encodings: what [strings.TrimSpace] is
    documented to remove.  [Trimmed s t] says that [t] is [s] without its
    leading and trailing white space. *)

Module unicode.

Definition White_Space : list N :=
  [ 0x0009; 0x000A; 0x000B; 0x000C; 0x000D; 0x0020; 0x0085; 0x00A0; 0x1680;
    0x2000; 0x2001; 0x2002; 0x2003; 0x2004; 0x2005; 0x2006; 0x2007; 0x2008;
    0x2009; 0x200A; 0x2028; 0x2029; 0x202F; 0x205F; 0x3000 ]%N.

(** UTF-8, for the code points below U+10000. *)
Definition utf8 (cp : N) : list ascii :=
  map ascii_of_N
    (if (cp <? 0x80)%N then [cp]
     else if (cp <? 0x800)%N then [0xC0 + cp / 64; 0x80 + cp mod 64]
     else [0xE0 + cp / 4096; 0x80 + (cp / 64) mod 64; 0x80 + cp mod 64])%N.

Definition spaces : list (list ascii) := map utf8 White_Space.

(** A sequence of white-space code points. *)
Definition Spaces (l : list ascii) : Prop :=
  exists runes, Forall (fun r => In r spaces) runes /\ l = concat runes.

Definition Trimmed (s t : string) : Prop :=
  exists pre post,
    list_ascii_of_string s = pre ++ list_ascii_of_string t ++ post /\
    Spaces pre /\ Spaces post /\
    (forall r rest, In r spaces -> list_ascii_of_string t <> r ++ rest) /\
    (forall r rest, In r spaces -> list_ascii_of_string t <> rest ++ r).

End unicode.

(** ** The surroundings of the package *)

Module time.
(** [time.Duration] counts nanoseconds. *)
Definition Duration := Z.
Definition Second : Duration := 1000000000%Z.
End time.

(** The library calls of [leader.go], each a function of the state of the
    surroundings ([World]: the file system, the API server and whatever else
    acts on them).  A call answers with a value or with an error and leaves a
    new state; [Sleep] answers nothing, but the world may move while the
    caller sleeps. *)
Record Env := {
  World : Type;
  Config : Type;
  Clientset : Type;
  ReadFile : string -> World -> (string + lib_error) * World;
  InClusterConfig : World -> (Config + lib_error) * World;
  NewForConfig : Config -> World -> (Clientset + lib_error) * World;
  Hostname : World -> (string + lib_error) * World;
  PodsGet : Clientset -> string -> string -> World -> (corev1.Pod + lib_error) * World;
  ConfigMapsGet : Clientset -> string -> string -> World -> (corev1.ConfigMap + lib_error) * World;
  ConfigMapsCreate : Clientset -> string -> corev1.ConfigMap -> World -> (corev1.ConfigMap + lib_error) * World;
  Sleep : time.Duration -> World -> World
}.

(** [logrus] levels used by the package. *)
Inductive Level := InfoLevel | WarnLevel | ErrorLevel.

(** What a run of the package does, in order: each library call with the
    error it answered ([None] is Go's [nil]), each log line, each sleep.
    [EvConfigMapsUpdate] and [EvConfigMapsDelete] stand for the other write
    verbs of the ConfigMaps client. *)
Inductive Event :=
| EvReadFile (path : string) (err : option lib_error)
| EvInClusterConfig (err : option lib_error)
| EvNewForConfig (err : option lib_error)
| EvHostname (err : option lib_error)
| EvPodsGet (ns name : string) (err : option lib_error)
| EvConfigMapsGet (ns name : string) (err : option lib_error)
| EvConfigMapsCreate (ns : string) (cm : corev1.ConfigMap) (err : option lib_error)
| EvConfigMapsUpdate (ns : string) (cm : corev1.ConfigMap) (err : option lib_error)
| EvConfigMapsDelete (ns name : string) (err : option lib_error)
| EvSleep (d : time.Duration)
| EvLog (level : Level) (msg : string).

#[global] Instance Level_eq_dec : EqDecision Level.
Proof. solve_decision. Defined.
#[global] Instance Event_eq_dec : EqDecision Event.
Proof. solve_decision. Defined.

(** ** The monad *)

(** A computation either returns or is still inside the creation loop when
    the fuel is spent. *)
Inductive outcome (A : Type) :=
| Returned (a : A)
| OutOfFuel.
Arguments Returned {A} a.
Arguments OutOfFuel {A}.

Record Run (W A : Type) := MkRun {
  result : outcome A;
  final : W;
  events : list Event
}.
Arguments MkRun {W A} _ _ _.
Arguments result {W A} _.
Arguments final {W A} _.
Arguments events {W A} _.

Definition M (W A : Type) : Type := W -> Run W A.

Definition ret {W A} (a : A) : M W A :=
  fun w => MkRun (Returned a) w [].

Definition bind {W A B} (m : M W A) (k : A -> M W B) : M W B :=
  fun w =>
    let r := m w in
    match result r with
    | Returned a =>
      let r' := k a (final r) in
      MkRun (result r') (final r') (events r ++ events r')
    | OutOfFuel => MkRun OutOfFuel (final r) (events r)
    end.

Declare Scope go_scope.
Delimit Scope go_scope with go.
Notation "x <~ m ; k" := (bind m (fun x => k))
  (at level 100, m at next level, k at level 200, right associativity) : go_scope.
Notation "m ;;; k" := (bind m (fun _ => k))
  (at level 100, k at level 200, right associativity) : go_scope.

(** The error of an answer, as Go's second return value. *)
Definition err_of {A} (r : A + lib_error) : option lib_error :=
  match r with inl _ => None | inr e => Some e end.

(** Issue a library call and record it. *)
Definition call {W A} (op : W -> (A + lib_error) * W)
    (ev : option lib_error -> Event) : M W (A + lib_error) :=
  fun w => let (r, w') := op w in MkRun (Returned r) w' [ev (err_of r)].

Module logrus.
Definition log {W} (l : Level) (msg : string) : M W unit :=
  fun w => MkRun (Returned tt) w [EvLog l msg].
Definition Info {W} : string -> M W unit := log InfoLevel.
Definition Warn {W} : string -> M W unit := log WarnLevel.
Definition Error {W} : string -> M W unit := log ErrorLevel.
End logrus.

(** ** [leader.go] *)

(** The owner reference [myOwnerRef] builds from the caller's pod
    (lines 152-157). *)
Definition podRef (myPod : corev1.Pod) : metav1.OwnerReference := {|
  metav1.RefAPIVersion := "v1";
  metav1.RefKind := "Pod";
  metav1.RefName := metav1.Name (corev1.PodMeta myPod);
  metav1.RefUID := metav1.UID (corev1.PodMeta myPod)
|}.

(** The ConfigMap [Become] builds (lines 60-70); the fields it leaves out
    have Go's zero values. *)
Definition lockRecord (name ns : string) (owner : metav1.OwnerReference)
    : corev1.ConfigMap := {|
  corev1.TypeMeta := {|
    metav1.APIVersion := "v1";
    metav1.Kind := "ConfigMap"
  |};
  corev1.ObjectMeta := {|
    metav1.Name := name;
    metav1.Namespace := ns;
    metav1.UID := "";
    metav1.OwnerReferences := [owner]
  |}
|}.

Section Leader.

Variable E : Env.

Local Open Scope go_scope.

Abbreviation Go := (M (World E)).

(** [time.Sleep]. *)
Definition time_Sleep (d : time.Duration) : Go unit :=
  fun w => MkRun (Returned tt) (Sleep E d w) [EvSleep d].

Definition namespacePath : string :=
  "/var/run/secrets/kubernetes.io/serviceaccount/namespace".

(** [myNS] (lines 124-135). *)
Definition myNS : Go (string + error) :=
  r <~ call (ReadFile E namespacePath) (EvReadFile namespacePath);
  match r with
  | inr err =>
    if os.IsNotExist err then ret (inr ErrNoNS)
    else ret (inr (LibError err))
  | inl nsBytes =>
    let ns := strings.TrimSpace nsBytes in
    logrus.Info ("found namespace: " +:+ ns);;;
    ret (inl ns)
  end.

(** [getClientset] (lines 111-121). *)
Definition getClientset : Go (Clientset E + error) :=
  r <~ call (InClusterConfig E) EvInClusterConfig;
  match r with
  | inr err => ret (inr (LibError err))
  | inl c =>
    r <~ call (NewForConfig E c) EvNewForConfig;
    match r with
    | inr err => ret (inr (LibError err))
    | inl cs => ret (inl cs)
    end
  end.

(** [myOwnerRef] (lines 139-159). *)
Definition myOwnerRef (client : Clientset E) (ns : string)
    : Go (metav1.OwnerReference + error) :=
  r <~ call (Hostname E) EvHostname;
  match r with
  | inr err => ret (inr (LibError err))
  | inl hostname =>
    logrus.Info ("found hostname: " +:+ hostname);;;
    r <~ call (PodsGet E client ns hostname) (EvPodsGet ns hostname);
    match r with
    | inr err =>
      logrus.Error "failed to get pod";;;
      ret (inr (LibError err))
    | inl myPod =>
      let owner := podRef myPod in
      ret (inl owner)
    end
  end.

(** The [for _, existingOwner := range ...] loop of [Become] (lines 76-84):
    [true] when the loop returns from [Become], [false] when it runs to its
    end. *)
Fixpoint checkOwners (owner : metav1.OwnerReference)
    (refs : list metav1.OwnerReference) : Go bool :=
  match refs with
  | [] => ret false
  | existingOwner :: rest =>
    if String.eqb (metav1.RefName existingOwner) (metav1.RefName owner) then
      logrus.Info "Found existing lock with my name. I was likely restarted.";;;
      logrus.Info "Continuing as the leader.";;;
      ret true
    else
      logrus.Info ("Found existing lock from " +:+ metav1.RefName existingOwner);;;
      checkOwners owner rest
  end.

(** The [for { ... }] loop of [Become] (lines 93-106), at most [fuel]
    iterations of it.  The result is the error [Become] returns. *)
Fixpoint createLoop (fuel : nat) (client : Clientset E) (ns : string)
    (cm : corev1.ConfigMap) : Go (option error) :=
  match fuel with
  | O => fun w => MkRun OutOfFuel w []
  | S fuel' =>
    r <~ call (ConfigMapsCreate E client ns cm) (EvConfigMapsCreate ns cm);
    match r with
    | inl _ =>
      logrus.Info "Became the leader.";;;
      ret None
    | inr err =>
      if apierrors.IsAlreadyExists err then
        logrus.Info "Not the leader. Waiting.";;;
        time_Sleep (time.Second * 1)%Z;;;
        createLoop fuel' client ns cm
      else
        logrus.Error "unknown error creating configmap";;;
        ret (Some (LibError err))
    end
  end.

(** [Become] (lines 42-107).  The result is Go's [error]: [None] is [nil]. *)
Definition Become (fuel : nat) (name : string) : Go (option error) :=
  logrus.Info "trying to become the leader";;;
  r <~ myNS;
  match r with
  | inr err => ret (Some err)
  | inl ns =>
    r <~ getClientset;
    match r with
    | inr err => ret (Some err)
    | inl client =>
      r <~ myOwnerRef client ns;
      match r with
      | inr err => ret (Some err)
      | inl owner =>
        let cm := lockRecord name ns owner in
        r <~ call (ConfigMapsGet E client ns name) (EvConfigMapsGet ns name);
        match r with
        | inl existing =>
          found <~ checkOwners owner (corev1.GetOwnerReferences existing);
          if (found : bool) then ret None
          else createLoop fuel client ns cm
        | inr err =>
          if apierrors.IsNotFound err then
            logrus.Info "No pre-existing lock was found.";;;
            createLoop fuel client ns cm
          else
            logrus.Error "unknown error trying to get ConfigMap";;;
            ret (Some (LibError err))
        end
      end
    end
  end.

(** [TryBecome] (lines 27-34). *)
Definition TryBecome (fuel : nat) (name : string) : Go (option error) :=
  err <~ Become fuel name;
  if decide (err = Some ErrNoNS) then
    logrus.Warn "leader election disabled; no namespace was detected";;;
    ret None
  else ret err.

End Leader.

Arguments namespacePath : simpl never.

(** ** An API server in memory

    A small cluster to run the package against: the namespace file, the host
    name, the pods and the ConfigMaps, keyed by namespace and name, and the
    permissions of the service account.  Other actors are a [schedule]: one
    action of theirs takes effect during each sleep of the caller. *)

Module Fake.

Inductive Verb := VerbGet | VerbCreate.
Inductive Resource := ResPods | ResConfigMaps.

Inductive Action :=
| Idle
| DeleteConfigMap (ns name : string)
| PutConfigMap (ns : string) (cm : corev1.ConfigMap).

Record Cluster := {
  nsFile : option string;
  inCluster : bool;
  hostname : string;
  rbac : list (Verb * Resource);
  pods : gmap (string * string) corev1.Pod;
  configMaps : gmap (string * string) corev1.ConfigMap;
  schedule : list Action;
  clock : time.Duration
}.

#[global] Instance Verb_eq_dec : EqDecision Verb.
Proof. solve_decision. Defined.
#[global] Instance Resource_eq_dec : EqDecision Resource.
Proof. solve_decision. Defined.

Definition allowed (c : Cluster) (v : Verb) (r : Resource) : bool :=
  bool_decide ((v, r) ∈ rbac c).

Definition forbidden : lib_error :=
  StatusError metav1.StatusReasonForbidden "forbidden".

Definition readFile (path : string) (c : Cluster) : (string + lib_error) * Cluster :=
  if String.eqb path namespacePath then
    match nsFile c with
    | Some contents => (inl contents, c)
    | None => (inr (PathError "open" path ENOENT), c)
    end
  else (inr (PathError "open" path ENOENT), c).

Definition inClusterConfig (c : Cluster) : (unit + lib_error) * Cluster :=
  if inCluster c then (inl tt, c)
  else (inr (errorString "unable to load in-cluster configuration"), c).

Definition newForConfig (_ : unit) (c : Cluster) : (unit + lib_error) * Cluster :=
  (inl tt, c).

Definition getHostname (c : Cluster) : (string + lib_error) * Cluster :=
  (inl (hostname c), c).

Definition podsGet (_ : unit) (ns name : string) (c : Cluster)
    : (corev1.Pod + lib_error) * Cluster :=
  if allowed c VerbGet ResPods then
    match pods c !! (ns, name) with
    | Some p => (inl p, c)
    | None => (inr (StatusError metav1.StatusReasonNotFound "pod not found"), c)
    end
  else (inr forbidden, c).

Definition configMapsGet (_ : unit) (ns name : string) (c : Cluster)
    : (corev1.ConfigMap + lib_error) * Cluster :=
  if allowed c VerbGet ResConfigMaps then
    match configMaps c !! (ns, name) with
    | Some cm => (inl cm, c)
    | None => (inr (StatusError metav1.StatusReasonNotFound "configmap not found"), c)
    end
  else (inr forbidden, c).

Definition withConfigMaps (m : gmap (string * string) corev1.ConfigMap)
    (c : Cluster) : Cluster :=
  {| nsFile := nsFile c; inCluster := inCluster c; hostname := hostname c;
     rbac := rbac c; pods := pods c; configMaps := m;
     schedule := schedule c; clock := clock c |}.

(** Create-if-absent: the uniqueness of a name within a namespace is the
    server's. *)
Definition configMapsCreate (_ : unit) (ns : string) (cm : corev1.ConfigMap)
    (c : Cluster) : (corev1.ConfigMap + lib_error) * Cluster :=
  if allowed c VerbCreate ResConfigMaps then
    if negb (String.eqb (metav1.Namespace (corev1.ObjectMeta cm)) ns) then
      (inr (StatusError metav1.StatusReasonBadRequest "namespace mismatch"), c)
    else
      let key := (ns, metav1.Name (corev1.ObjectMeta cm)) in
      match configMaps c !! key with
      | Some _ =>
        (inr (StatusError metav1.StatusReasonAlreadyExists "configmap already exists"), c)
      | None => (inl cm, withConfigMaps (<[key := cm]> (configMaps c)) c)
      end
  else (inr forbidden, c).

Definition act (a : Action) (m : gmap (string * string) corev1.ConfigMap)
    : gmap (string * string) corev1.ConfigMap :=
  match a with
  | Idle => m
  | DeleteConfigMap ns name => delete (ns, name) m
  | PutConfigMap ns cm => <[(ns, metav1.Name (corev1.ObjectMeta cm)) := cm]> m
  end.

Definition sleep (d : time.Duration) (c : Cluster) : Cluster :=
  {| nsFile := nsFile c; inCluster := inCluster c; hostname := hostname c;
     rbac := rbac c; pods := pods c;
     configMaps := match schedule c with
                   | [] => configMaps c
                   | a :: _ => act a (configMaps c)
                   end;
     schedule := tail (schedule c);
     clock := (clock c + d)%Z |}.

Definition env : Env := {|
  World := Cluster;
  Config := unit;
  Clientset := unit;
  ReadFile := readFile;
  InClusterConfig := inClusterConfig;
  NewForConfig := newForConfig;
  Hostname := getHostname;
  PodsGet := podsGet;
  ConfigMapsGet := configMapsGet;
  ConfigMapsCreate := configMapsCreate;
  Sleep := sleep
|}.

(** A pod of the cluster and a lock record owned by a pod. *)
Definition pod (ns name uid : string) : corev1.Pod :=
  {| corev1.PodMeta := {| metav1.Name := name; metav1.Namespace := ns;
                          metav1.UID := uid; metav1.OwnerReferences := [] |} |}.

Definition ownerOf (name uid : string) : metav1.OwnerReference :=
  {| metav1.RefAPIVersion := "v1"; metav1.RefKind := "Pod";
     metav1.RefName := name; metav1.RefUID := uid |}.

Definition lock (ns name : string) (owners : list metav1.OwnerReference)
    : corev1.ConfigMap :=
  {| corev1.TypeMeta := {| metav1.APIVersion := "v1"; metav1.Kind := "ConfigMap" |};
     corev1.ObjectMeta := {| metav1.Name := name; metav1.Namespace := ns;
                             metav1.UID := ""; metav1.OwnerReferences := owners |} |}.

Definition fullAccess : list (Verb * Resource) :=
  [(VerbGet, ResPods); (VerbGet, ResConfigMaps); (VerbCreate, ResConfigMaps)].

(** A cluster in which the caller runs as pod [host] (uid [uid]) of
    namespace [default], holding the given ConfigMaps. *)
Definition cluster (host uid : string)
    (cms : list corev1.ConfigMap) (sched : list Action) : Cluster :=
  {| nsFile := Some "default
";
     inCluster := true;
     hostname := host;
     rbac := fullAccess;
     pods := {[ ("default", host) := pod "default" host uid ]};
     configMaps := list_to_map
       (map (fun cm => ((metav1.Namespace (corev1.ObjectMeta cm),
                         metav1.Name (corev1.ObjectMeta cm)), cm)) cms);
     schedule := sched;
     clock := 0%Z |}.

(** Pod [pod-b] starts while the lock [app-lock] belongs to pod [pod-a]. *)
Definition contested : Cluster :=
  cluster "pod-b" "uid-b"
    [lock "default" "app-lock" [ownerOf "pod-a" "uid-a"]] [].

(** The same start, but the lock of [pod-a] is collected during the second
    sleep of the caller. *)
Definition vacated : Cluster :=
  cluster "pod-b" "uid-b"
    [lock "default" "app-lock" [ownerOf "pod-a" "uid-a"]]
    [Idle; DeleteConfigMap "default" "app-lock"].

(** A new pod took the name [pod-a] while the lock [app-lock] still belongs
    to the former pod of that name. *)
Definition recreated : Cluster :=
  cluster "pod-a" "uid-2"
    [lock "default" "app-lock" [ownerOf "pod-a" "uid-1"]] [].

(** The same cluster with other contents in its namespace file. *)
Definition withNsFile (contents : string) (c : Cluster) : Cluster :=
  {| nsFile := Some contents; inCluster := inCluster c; hostname := hostname c;
     rbac := rbac c; pods := pods c; configMaps := configMaps c;
     schedule := schedule c; clock := clock c |}.

(** The same cluster under other permissions. *)
Definition withRbac (perms : list (Verb * Resource)) (c : Cluster) : Cluster :=
  {| nsFile := nsFile c; inCluster := inCluster c; hostname := hostname c;
     rbac := perms; pods := pods c; configMaps := configMaps c;
     schedule := schedule c; clock := clock c |}.

(** A process started outside any cluster: no service-account files. *)
Definition local (host : string) : Cluster :=
  {| nsFile := None;
     inCluster := false;
     hostname := host;
     rbac := [];
     pods := ∅;
     configMaps := ∅;
     schedule := [];
     clock := 0%Z |}.

End Fake.

(** ** Reading a run *)

(** Calls to the API server, of any verb. *)
Definition isStoreCall (ev : Event) : bool :=
  match ev with
  | EvPodsGet _ _ _ | EvConfigMapsGet _ _ _ | EvConfigMapsCreate _ _ _
  | EvConfigMapsUpdate _ _ _ | EvConfigMapsDelete _ _ _ => true
  | _ => false
  end.

Definition isCreate (ev : Event) : bool :=
  match ev with EvConfigMapsCreate _ _ _ => true | _ => false end.

Definition isGet (ev : Event) : bool :=
  match ev with EvConfigMapsGet _ _ _ => true | _ => false end.

Definition isSleep (ev : Event) : bool :=
  match ev with EvSleep _ => true | _ => false end.

Definition isLog (ev : Event) : bool :=
  match ev with EvLog _ _ => true | _ => false end.

(** The number of events of a kind in a trace. *)
Definition count (p : Event -> bool) (t : list Event) : nat :=
  length (List.filter p t).

Section Reading.

Variable E : Env.

(** The surroundings answer every identity question of [Become]: the
    namespace file reads as [ns] once trimmed, a client is built, the host
    is called [host] and the API server knows the pod of that name.  [w'] is
    the state the five calls leave. *)
Definition Identified (w : World E) (ns : string) (client : Clientset E)
    (host : string) (myPod : corev1.Pod) (w' : World E) : Prop :=
  exists nsBytes cfg w1 w2 w3 w4,
    ReadFile E namespacePath w = (inl nsBytes, w1) /\
    ns = strings.TrimSpace nsBytes /\
    InClusterConfig E w1 = (inl cfg, w2) /\
    NewForConfig E cfg w2 = (inl client, w3) /\
    Hostname E w3 = (inl host, w4) /\
    PodsGet E client ns host w4 = (inl myPod, w').

End Reading.

(** What [Become] has done once its identity is resolved. *)
Definition preamble (ns host : string) : list Event :=
  [ EvLog InfoLevel "trying to become the leader";
    EvReadFile namespacePath None;
    EvLog InfoLevel ("found namespace: " +:+ ns);
    EvInClusterConfig None;
    EvNewForConfig None;
    EvHostname None;
    EvLog InfoLevel ("found hostname: " +:+ host);
    EvPodsGet ns host None ].

(** Calls to the ConfigMaps client, of any verb. *)
Definition isLockCall (ev : Event) : bool :=
  match ev with
  | EvConfigMapsGet _ _ _ | EvConfigMapsCreate _ _ _
  | EvConfigMapsUpdate _ _ _ | EvConfigMapsDelete _ _ _ => true
  | _ => false
  end.

(** A run that continues a trace already written. *)
Definition prepend {W A} (t : list Event) (r : Run W A) : Run W A :=
  MkRun (result r) (final r) (t ++ events r).

(** The test of line 77. *)
Definition sameName (owner existingOwner : metav1.OwnerReference) : bool :=
  String.eqb (metav1.RefName existingOwner) (metav1.RefName owner).

(** The log lines of the ownership check: one line for each reference that
    comes before the first one carrying the caller's name, then the two lines
    of the restart. *)
Fixpoint ownerLogs (owner : metav1.OwnerReference)
    (refs : list metav1.OwnerReference) : list Event :=
  match refs with
  | [] => []
  | existingOwner :: rest =>
    if sameName owner existingOwner then
      [EvLog InfoLevel "Found existing lock with my name. I was likely restarted.";
       EvLog InfoLevel "Continuing as the leader."]
    else
      EvLog InfoLevel ("Found existing lock from " +:+ metav1.RefName existingOwner)
        :: ownerLogs owner rest
  end.

(** The log line of line 82. *)
Definition fromLog (existingOwner : metav1.OwnerReference) : Event :=
  EvLog InfoLevel ("Found existing lock from " +:+ metav1.RefName existingOwner).

(** One turn of the creation loop that met a conflict. *)
Definition conflictTurn (ns : string) (cm : corev1.ConfigMap) (err : lib_error)
    : list Event :=
  [EvConfigMapsCreate ns cm (Some err);
   EvLog InfoLevel "Not the leader. Waiting.";
   EvSleep time.Second].

(** The traces of the creation loop, with the result each ends in: turns
    that met a conflict, then a creation that succeeded, a creation that
    failed otherwise, or the end of the fuel. *)
Inductive LoopTrace (ns : string) (cm : corev1.ConfigMap)
    : list Event -> outcome (option error) -> Prop :=
| LoopSpent : LoopTrace ns cm [] OutOfFuel
| LoopCreated :
    LoopTrace ns cm
      [EvConfigMapsCreate ns cm None; EvLog InfoLevel "Became the leader."]
      (Returned None)
| LoopFatal err :
    apierrors.IsAlreadyExists err = false ->
    LoopTrace ns cm
      [EvConfigMapsCreate ns cm (Some err);
       EvLog ErrorLevel "unknown error creating configmap"]
      (Returned (Some (LibError err)))
| LoopConflict err t r :
    apierrors.IsAlreadyExists err = true ->
    LoopTrace ns cm t r ->
    LoopTrace ns cm (conflictTurn ns cm err ++ t) r.

(** The error of an answer [Become] does not absorb: a read that failed
    otherwise than by NotFound, a create that failed otherwise than by
    AlreadyExists. *)
Definition fatalAnswer (ev : Event) : option lib_error :=
  match ev with
  | EvConfigMapsGet _ _ (Some err) =>
    if apierrors.IsNotFound err then None else Some err
  | EvConfigMapsCreate _ _ (Some err) =>
    if apierrors.IsAlreadyExists err then None else Some err
  | _ => None
  end.

(** The answer of a library call: [Some None] when it succeeded,
    [Some (Some err)] when it failed; [None] for the events that are no call. *)
Definition answer (ev : Event) : option (option lib_error) :=
  match ev with
  | EvReadFile _ a | EvInClusterConfig a | EvNewForConfig a | EvHostname a
  | EvPodsGet _ _ a | EvConfigMapsGet _ _ a | EvConfigMapsCreate _ _ a
  | EvConfigMapsUpdate _ _ a | EvConfigMapsDelete _ _ a => Some a
  | EvSleep _ | EvLog _ _ => None
  end.

(** The answer of the last library call of a trace. *)
Fixpoint lastAnswer (t : list Event) : option (option lib_error) :=
  match t with
  | [] => None
  | ev :: t' =>
    match lastAnswer t' with
    | Some a => Some a
    | None => answer ev
    end
  end.

(** A create that met the lock of another. *)
Definition isConflict (ev : Event) : bool :=
  match ev with
  | EvConfigMapsCreate _ _ (Some err) => apierrors.IsAlreadyExists err
  | _ => false
  end.

(** The events of resolving the identity of the caller in namespace [ns] on
    host [host]: no call to the ConfigMaps client, no sleep. *)
Definition identityEvent (ns host : string) (ev : Event) : bool :=
  match ev with
  | EvReadFile _ _ | EvInClusterConfig _ | EvNewForConfig _ | EvHostname _
  | EvLog _ _ => true
  | EvPodsGet ns' host' _ => bool_decide (ns' = ns /\ host' = host)
  | _ => false
  end.

(** The events of an election for the lock [name] of namespace [ns] by the
    pod [host] with the record [cm]: of the API server, only the read of
    that pod, reads of that lock and creations of that record. *)
Definition electionEvent (ns host name : string) (cm : corev1.ConfigMap)
    (ev : Event) : bool :=
  match ev with
  | EvPodsGet ns' host' _ => bool_decide (ns' = ns /\ host' = host)
  | EvConfigMapsGet ns' name' _ => bool_decide (ns' = ns /\ name' = name)
  | EvConfigMapsCreate ns' cm' _ => bool_decide (ns' = ns /\ cm' = cm)
  | EvConfigMapsUpdate _ _ _ | EvConfigMapsDelete _ _ _ => false
  | _ => true
  end.

Section Paths.

Variable E : Env.

(** The four ways through [Become]: the identity of the caller is not
    resolved; the lock read at the start carries the caller's name; that read
    fails; the creation loop is entered, after a read that found another
    owner's lock or none. *)
Inductive Path (fuel : nat) (name : string)
    : Run (World E) (option error) -> Prop :=
| PathUnresolved r err ns host e :
    result r = Returned (Some err) ->
    Forall (fun ev => identityEvent ns host ev = true) (events r) ->
    lastAnswer (events r) = Some (Some e) ->
    err = LibError e \/ (err = ErrNoNS /\ os.IsNotExist e = true) ->
    Path fuel name r
| PathRestart ns host logs wf :
    Forall (fun ev => isLog ev = true) logs ->
    Path fuel name
      (MkRun (Returned None) wf
         (preamble ns host ++ EvConfigMapsGet ns name None :: logs))
| PathReadFailed ns host err wf :
    apierrors.IsNotFound err = false ->
    Path fuel name
      (MkRun (Returned (Some (LibError err))) wf
         (preamble ns host ++
          [EvConfigMapsGet ns name (Some err);
           EvLog ErrorLevel "unknown error trying to get ConfigMap"]))
| PathLoop ns host client owner answer logs wl :
    Forall (fun ev => isLog ev = true) logs ->
    (forall err, answer = Some err -> apierrors.IsNotFound err = true) ->
    Path fuel name
      (prepend (preamble ns host ++ EvConfigMapsGet ns name answer :: logs)
         (createLoop E fuel client ns (lockRecord name ns owner) wl)).

End Paths.

(** * Verification *)

(** ** Running the monad *)

Arguments String.append : simpl never.

Ltac run :=
  repeat (progress (unfold bind, call, ret, time_Sleep, logrus.Info, logrus.Warn,
                    logrus.Error, logrus.log; cbn [result final events app])).

Ltac identity_events :=
  repeat (apply List.Forall_cons;
          [first [reflexivity | cbn; by apply bool_decide_eq_true_2] |]);
  try apply List.Forall_nil.

Lemma prepend_nil {W A} (r : Run W A) : prepend [] r = r.
Proof. destruct r. reflexivity. Qed.

Lemma prepend_prepend {W A} (t u : list Event) (r : Run W A) :
  prepend t (prepend u r) = prepend (t ++ u) r.
Proof. unfold prepend. cbn. by rewrite app_assoc. Qed.

Lemma bind_run {W A B} (m : M W A) (k : A -> M W B) (w w' : W) (a : A) t :
  m w = MkRun (Returned a) w' t ->
  bind m k w = prepend t (k a w').
Proof. intros H. unfold bind. rewrite H. reflexivity. Qed.

Ltac bind_step H := rewrite (bind_run _ _ _ _ _ _ H); cbv beta iota.

Lemma count_app p (t u : list Event) : count p (t ++ u) = count p t + count p u.
Proof. unfold count. by rewrite List.filter_app, length_app. Qed.

(** ** The two loops *)

Section Loops.

Variable E : Env.

Lemma checkOwners_run owner refs (w : World E) :
  checkOwners E owner refs w =
    MkRun (Returned (existsb (sameName owner) refs)) w (ownerLogs owner refs).
Proof.
  induction refs as [| existingOwner rest IH]; [reflexivity |].
  cbn [checkOwners existsb ownerLogs]. unfold sameName at 1 3.
  destruct (String.eqb _ _) eqn:Hname; [reflexivity |].
  run. rewrite IH. reflexivity.
Qed.

Lemma createLoop_S fuel client ns cm (w : World E) :
  createLoop E (S fuel) client ns cm w =
    match ConfigMapsCreate E client ns cm w with
    | (inl _, w') =>
      MkRun (Returned None) w'
        [EvConfigMapsCreate ns cm None; EvLog InfoLevel "Became the leader."]
    | (inr err, w') =>
      if apierrors.IsAlreadyExists err then
        prepend (conflictTurn ns cm err)
          (createLoop E fuel client ns cm (Sleep E time.Second w'))
      else
        MkRun (Returned (Some (LibError err))) w'
          [EvConfigMapsCreate ns cm (Some err);
           EvLog ErrorLevel "unknown error creating configmap"]
    end.
Proof.
  cbn [createLoop]. run.
  destruct (ConfigMapsCreate E client ns cm w) as [[created | err] w'].
  - reflexivity.
  - cbn. destruct (apierrors.IsAlreadyExists err).
    + run. destruct (createLoop E fuel client ns cm _) as [[x |] wf tf];
        reflexivity.
    + reflexivity.
Qed.

Lemma createLoop_trace fuel client ns cm (w : World E) :
  LoopTrace ns cm (events (createLoop E fuel client ns cm w))
                  (result (createLoop E fuel client ns cm w)).
Proof.
  revert w. induction fuel as [| fuel IH]; intros w.
  - constructor.
  - rewrite createLoop_S.
    destruct (ConfigMapsCreate E client ns cm w) as [[created | err] w'].
    + constructor.
    + destruct (apierrors.IsAlreadyExists err) eqn:Hex.
      * cbn. by constructor.
      * by constructor.
Qed.

End Loops.

(** ** The paths of [Become] *)

Section BecomePaths.

Variable E : Env.

Lemma identityEvent_quiet ns host ev :
  identityEvent ns host ev = true -> isLockCall ev = false /\ isSleep ev = false.
Proof. destruct ev; cbn; intros H; try discriminate; auto. Qed.

Lemma identityEvent_election ns host name cm ev :
  identityEvent ns host ev = true -> electionEvent ns host name cm ev = true.
Proof. destruct ev; cbn; intros H; try discriminate; auto. Qed.

Lemma preamble_identity ns host :
  Forall (fun ev => identityEvent ns host ev = true) (preamble ns host).
Proof. unfold preamble. identity_events. Qed.

Lemma call_run {A} (op : World E -> (A + lib_error) * World E) ev w r w' :
  op w = (r, w') -> call op ev w = MkRun (Returned r) w' [ev (err_of r)].
Proof. intros H. unfold call. by rewrite H. Qed.

Lemma myNS_run (w : World E) :
  myNS E w =
    match ReadFile E namespacePath w with
    | (inl nsBytes, w') =>
      MkRun (Returned (inl (strings.TrimSpace nsBytes))) w'
        [EvReadFile namespacePath None;
         EvLog InfoLevel ("found namespace: " +:+ strings.TrimSpace nsBytes)]
    | (inr err, w') =>
      MkRun (Returned (inr (if os.IsNotExist err then ErrNoNS else LibError err))) w'
        [EvReadFile namespacePath (Some err)]
    end.
Proof.
  unfold myNS. run.
  destruct (ReadFile E namespacePath w) as [[nsBytes | err] w']; cbn; [reflexivity |].
  by destruct (os.IsNotExist err).
Qed.

Lemma getClientset_run (w : World E) :
  getClientset E w =
    match InClusterConfig E w with
    | (inr err, w1) =>
      MkRun (Returned (inr (LibError err))) w1 [EvInClusterConfig (Some err)]
    | (inl c, w1) =>
      match NewForConfig E c w1 with
      | (inr err, w2) =>
        MkRun (Returned (inr (LibError err))) w2
          [EvInClusterConfig None; EvNewForConfig (Some err)]
      | (inl cs, w2) =>
        MkRun (Returned (inl cs)) w2 [EvInClusterConfig None; EvNewForConfig None]
      end
    end.
Proof.
  unfold getClientset. run.
  destruct (InClusterConfig E w) as [[c | err] w1]; cbn; [| reflexivity].
  by destruct (NewForConfig E c w1) as [[cs | err] w2].
Qed.

Lemma myOwnerRef_run client ns (w : World E) :
  myOwnerRef E client ns w =
    match Hostname E w with
    | (inr err, w1) =>
      MkRun (Returned (inr (LibError err))) w1 [EvHostname (Some err)]
    | (inl hostname, w1) =>
      match PodsGet E client ns hostname w1 with
      | (inr err, w2) =>
        MkRun (Returned (inr (LibError err))) w2
          [EvHostname None;
           EvLog InfoLevel ("found hostname: " +:+ hostname);
           EvPodsGet ns hostname (Some err);
           EvLog ErrorLevel "failed to get pod"]
      | (inl myPod, w2) =>
        MkRun (Returned (inl (podRef myPod))) w2
          [EvHostname None;
           EvLog InfoLevel ("found hostname: " +:+ hostname);
           EvPodsGet ns hostname None]
      end
    end.
Proof.
  unfold myOwnerRef. run.
  destruct (Hostname E w) as [[hostname | err] w1]; cbn; [| reflexivity].
  by destruct (PodsGet E client ns hostname w1) as [[myPod | err] w2].
Qed.

(** Either the identity of the caller is resolved, or [Become] returns the
    error of the call that failed, whatever the fuel, having left the
    ConfigMaps alone; the error is [ErrNoNS] exactly when the namespace file
    does not exist. *)
Lemma Become_identity name (w : World E) :
  (exists ns client host myPod w', Identified E w ns client host myPod w') \/
  (exists err ns host e wf t,
     (forall fuel, Become E fuel name w = MkRun (Returned (Some err)) wf t) /\
     Forall (fun ev => identityEvent ns host ev = true) t /\
     lastAnswer t = Some (Some e) /\
     (err = LibError e \/ (err = ErrNoNS /\ os.IsNotExist e = true)) /\
     (err = ErrNoNS <->
      exists e' w', ReadFile E namespacePath w = (inr e', w') /\
                    os.IsNotExist e' = true)).
Proof.
  assert (Hlog : logrus.Info "trying to become the leader" w =
                 MkRun (Returned tt) w [EvLog InfoLevel "trying to become the leader"])
    by reflexivity.
  pose proof (myNS_run w) as Hns.
  destruct (ReadFile E namespacePath w) as [[nsBytes | e1] w1] eqn:H1.
  2:{ right. eexists; exists "", "", e1; do 2 eexists.
      split; [intros fuel; unfold Become; bind_step Hlog; bind_step Hns; reflexivity |].
      cbn. split; [identity_events |]. split; [reflexivity |].
      destruct (os.IsNotExist e1) eqn:Hne.
      - split; [by right |]. split; [by exists e1, w1 | done].
      - split; [by left |]. split; [done |].
        intros (e' & w' & [= <- <-] & He'). congruence. }
  assert (Hno : forall e, LibError e = ErrNoNS <->
            exists e' w', (inl nsBytes, w1) = (@inr string lib_error e', w') /\
                          os.IsNotExist e' = true).
  { intros e. split; [done |]. by intros (e' & w' & Heq & _). }
  pose proof (getClientset_run w1) as Hcs.
  destruct (InClusterConfig E w1) as [[cfg | e2] w2] eqn:H2.
  2:{ right. eexists; exists "", "", e2; do 2 eexists.
      split; [intros fuel; unfold Become; bind_step Hlog; bind_step Hns;
              bind_step Hcs; reflexivity |].
      cbn. split; [identity_events |]. split; [reflexivity |].
      split; [by left | apply Hno]. }
  destruct (NewForConfig E cfg w2) as [[client | e3] w3] eqn:H3.
  2:{ right. eexists; exists "", "", e3; do 2 eexists.
      split; [intros fuel; unfold Become; bind_step Hlog; bind_step Hns;
              bind_step Hcs; reflexivity |].
      cbn. split; [identity_events |]. split; [reflexivity |].
      split; [by left | apply Hno]. }
  pose proof (myOwnerRef_run client (strings.TrimSpace nsBytes) w3) as Hor.
  destruct (Hostname E w3) as [[host | e4] w4] eqn:H4.
  2:{ right. eexists; exists "", "", e4; do 2 eexists.
      split; [intros fuel; unfold Become; bind_step Hlog; bind_step Hns;
              bind_step Hcs; bind_step Hor; reflexivity |].
      cbn. split; [identity_events |]. split; [reflexivity |].
      split; [by left | apply Hno]. }
  destruct (PodsGet E client (strings.TrimSpace nsBytes) host w4)
    as [[myPod | e5] w5] eqn:H5.
  2:{ right. eexists; exists (strings.TrimSpace nsBytes), host, e5; do 2 eexists.
      split; [intros fuel; unfold Become; bind_step Hlog; bind_step Hns;
              bind_step Hcs; bind_step Hor; reflexivity |].
      cbn. split; [identity_events |]. split; [reflexivity |].
      split; [by left | apply Hno]. }
  left. exists (strings.TrimSpace nsBytes), client, host, myPod, w5.
  exists nsBytes, cfg, w1, w2, w3, w4. auto 10.
Qed.

Section Identified.

Context (fuel : nat) (name : string) (w w' : World E) (ns : string)
  (client : Clientset E) (host : string) (myPod : corev1.Pod).
Hypothesis Hid : Identified E w ns client host myPod w'.

Let owner := podRef myPod.
Let cm := lockRecord name ns owner.

(** Once the identity is resolved, what is left of [Become] is the read of
    the lock and what follows it (lines 72-106). *)
Lemma Become_resolved :
  Become E fuel name w =
    prepend (preamble ns host)
      (bind (call (ConfigMapsGet E client ns name) (EvConfigMapsGet ns name))
         (fun r =>
            match r with
            | inl existing =>
              bind (checkOwners E owner (corev1.GetOwnerReferences existing))
                (fun found : bool =>
                   if found then ret None else createLoop E fuel client ns cm)
            | inr err =>
              if apierrors.IsNotFound err then
                bind (logrus.Info "No pre-existing lock was found.")
                  (fun _ => createLoop E fuel client ns cm)
              else
                bind (logrus.Error "unknown error trying to get ConfigMap")
                  (fun _ => ret (Some (LibError err)))
            end) w').
Proof.
  destruct Hid as (nsBytes & cfg & w1 & w2 & w3 & w4 & H1 & Hns & H2 & H3 & H4 & H5).
  assert (Hlog : logrus.Info "trying to become the leader" w =
                 MkRun (Returned tt) w [EvLog InfoLevel "trying to become the leader"])
    by reflexivity.
  pose proof (myNS_run w) as Hmy. rewrite H1, <- Hns in Hmy.
  pose proof (getClientset_run w1) as Hcs. rewrite H2, H3 in Hcs.
  pose proof (myOwnerRef_run client ns w3) as Hor. rewrite H4, H5 in Hor.
  unfold Become. bind_step Hlog. bind_step Hmy. bind_step Hcs. bind_step Hor.
  cbv zeta. rewrite !prepend_prepend. reflexivity.
Qed.

Lemma Become_found existing w'' :
  ConfigMapsGet E client ns name w' = (inl existing, w'') ->
  Become E fuel name w =
    let t := preamble ns host ++ EvConfigMapsGet ns name None
               :: ownerLogs owner (corev1.GetOwnerReferences existing) in
    if existsb (sameName owner) (corev1.GetOwnerReferences existing)
    then MkRun (Returned None) w'' t
    else prepend t (createLoop E fuel client ns cm w'').
Proof.
  intros Hget. rewrite Become_resolved.
  bind_step (call_run _ (EvConfigMapsGet ns name) _ _ _ Hget).
  bind_step (checkOwners_run E owner (corev1.GetOwnerReferences existing) w'').
  cbv zeta. rewrite !prepend_prepend.
  destruct (existsb _ _).
  - unfold prepend, ret. cbn [result final events err_of]. by rewrite app_nil_r.
  - reflexivity.
Qed.

Lemma Become_not_found err w'' :
  ConfigMapsGet E client ns name w' = (inr err, w'') ->
  apierrors.IsNotFound err = true ->
  Become E fuel name w =
    prepend (preamble ns host ++
             [EvConfigMapsGet ns name (Some err);
              EvLog InfoLevel "No pre-existing lock was found."])
            (createLoop E fuel client ns cm w'').
Proof.
  intros Hget Hnf. rewrite Become_resolved.
  bind_step (call_run _ (EvConfigMapsGet ns name) _ _ _ Hget).
  rewrite Hnf.
  assert (Hlog : logrus.Info "No pre-existing lock was found." w'' =
                 MkRun (Returned tt) w'' [EvLog InfoLevel "No pre-existing lock was found."])
    by reflexivity.
  bind_step Hlog. rewrite !prepend_prepend. reflexivity.
Qed.

Lemma Become_get_fatal err w'' :
  ConfigMapsGet E client ns name w' = (inr err, w'') ->
  apierrors.IsNotFound err = false ->
  Become E fuel name w =
    MkRun (Returned (Some (LibError err))) w''
      (preamble ns host ++
       [EvConfigMapsGet ns name (Some err);
        EvLog ErrorLevel "unknown error trying to get ConfigMap"]).
Proof.
  intros Hget Hnf. rewrite Become_resolved.
  bind_step (call_run _ (EvConfigMapsGet ns name) _ _ _ Hget).
  rewrite Hnf. reflexivity.
Qed.

End Identified.

End BecomePaths.

(** ** [strings.TrimSpace] trims *)

Section WhiteSpace.

Import strings unicode.

Ltac in_table := vm_compute; repeat (first [left; reflexivity | right]).

Ltac each_byte c H :=
  destruct c as [[] [] [] [] [] [] [] []]; cbn in H; try discriminate H.

Lemma isAsciiSpace_spaces c : isAsciiSpace c = true -> In [c] spaces.
Proof. intros H. each_byte c H; in_table. Qed.

Lemma isSpace2_spaces c d : isSpace2 c d = true -> In [c; d] spaces.
Proof. intros H. each_byte c H; each_byte d H; in_table. Qed.

Lemma isSpace3_spaces c d e : isSpace3 c d e = true -> In [c; d; e] spaces.
Proof. intros H. each_byte c H; each_byte d H; each_byte e H; in_table. Qed.

Lemma spaceRune_sound s k :
  spaceRune s = S k -> In (take (S k) s) spaces /\ S k <= length s.
Proof.
  destruct s as [| c [| d [| e s]]]; cbn [spaceRune]; try discriminate;
    destruct (isAsciiSpace c) eqn:H1; try discriminate;
    try (intros [= <-]; split; [by apply isAsciiSpace_spaces | cbn; lia]);
    destruct (isSpace2 c d) eqn:H2; try discriminate;
    try (intros [= <-]; split; [by apply isSpace2_spaces | cbn; lia]);
    destruct (isSpace3 c d e) eqn:H3; try discriminate.
  intros [= <-]. split; [by apply isSpace3_spaces | cbn; lia].
Qed.

Lemma spaceRuneRev_sound s k :
  spaceRuneRev s = S k -> In (rev (take (S k) s)) spaces /\ S k <= length s.
Proof.
  destruct s as [| c [| d [| e s]]]; cbn [spaceRuneRev]; try discriminate;
    destruct (isAsciiSpace c) eqn:H1; try discriminate;
    try (intros [= <-]; split; [by apply isAsciiSpace_spaces | cbn; lia]);
    destruct (isSpace2 d c) eqn:H2; try discriminate;
    try (intros [= <-]; split; [by apply isSpace2_spaces | cbn; lia]);
    destruct (isSpace3 e d c) eqn:H3; try discriminate.
  intros [= <-]. split; [by apply isSpace3_spaces | cbn; lia].
Qed.

Lemma spaceRune_complete r rest :
  In r spaces -> spaceRune (r ++ rest) = length r /\ length r <> 0.
Proof.
  intros H. vm_compute in H.
  repeat (destruct H as [<- | H];
          [split; [destruct rest as [| ? [| ? ?]]; reflexivity | discriminate] |]).
  destruct H.
Qed.

Lemma spaceRuneRev_complete r rest :
  In r spaces -> spaceRuneRev (rev r ++ rest) = length r /\ length r <> 0.
Proof.
  intros H. vm_compute in H.
  repeat (destruct H as [<- | H];
          [split; [destruct rest as [| ? [| ? ?]]; reflexivity | discriminate] |]).
  destruct H.
Qed.

Lemma spaceRune_prefix b x : spaceRune (b ++ x) = 0 -> spaceRune b = 0.
Proof.
  destruct b as [| c [| d [| e b]]]; [reflexivity | | |];
    destruct x as [| x1 [| x2 x]]; cbn [app spaceRune];
    destruct (isAsciiSpace c); try discriminate; try reflexivity;
    destruct (isSpace2 c d); try discriminate; try reflexivity;
    try (destruct (isSpace2 c x1); try discriminate; try reflexivity);
    try (destruct (isSpace3 c d e); try discriminate; try reflexivity);
    try (destruct (isSpace3 c x1 x2); try discriminate; try reflexivity);
    try (destruct (isSpace3 c d x1); try discriminate; try reflexivity).
Qed.

Section TrimWith.

Variables (rune : list ascii -> nat) (Q : list ascii -> Prop).
Hypothesis rune_sound :
  forall s k, rune s = S k -> Q (take (S k) s) /\ S k <= length s.

Lemma trimWith_split n s :
  exists runes, Forall Q runes /\ s = concat runes ++ trimWith rune n s.
Proof.
  revert s. induction n as [| n IH]; intros s; cbn [trimWith].
  - by exists [].
  - destruct (rune s) as [| k] eqn:Hr; [by exists [] |].
    destruct (rune_sound s k Hr) as [HQ _].
    destruct (IH (drop (S k) s)) as (runes & Hrunes & Heq).
    exists (take (S k) s :: runes). split; [by constructor |].
    cbn [concat]. rewrite <- app_assoc, <- Heq. by rewrite take_drop.
Qed.

Lemma trimWith_done n s : length s <= n -> rune (trimWith rune n s) = 0.
Proof.
  revert s. induction n as [| n IH]; intros s Hlen; cbn [trimWith].
  - destruct (rune s) as [| k] eqn:Hr; [reflexivity |].
    destruct (rune_sound s k Hr) as [_ Hk]. lia.
  - destruct (rune s) as [| k] eqn:Hr; [exact Hr |].
    destruct (rune_sound s k Hr) as [_ Hk].
    apply IH. rewrite length_drop. lia.
Qed.

End TrimWith.

Lemma rev_concat_runes (runes : list (list ascii)) :
  rev (concat runes) = concat (map (@rev ascii) (rev runes)).
Proof.
  induction runes as [| r runes IH]; [reflexivity |].
  cbn [concat rev]. rewrite rev_app_distr, IH, map_app, concat_app. cbn.
  by rewrite app_nil_r.
Qed.

(** What [strings.TrimSpace] returns is its argument without the white space
    at its two ends, and has white space at neither end. *)
Lemma TrimSpace_Trimmed (s : string) : Trimmed s (TrimSpace s).
Proof.
  unfold Trimmed, TrimSpace. rewrite list_ascii_of_string_of_list_ascii.
  set (l := list_ascii_of_string s).
  destruct (trimWith_split spaceRune (fun r => In r spaces)
              (fun s k H => spaceRune_sound s k H) (length l) l)
    as (runes1 & Hrunes1 & Hl).
  fold (trimLeft l) in Hl.
  pose proof (trimWith_done spaceRune (fun r => In r spaces)
                (fun s k H => spaceRune_sound s k H) (length l) l (le_n _)) as Hleft.
  fold (trimLeft l) in Hleft.
  set (a := trimLeft l) in *.
  destruct (trimWith_split spaceRuneRev (fun r => In (rev r) spaces)
              (fun s k H => spaceRuneRev_sound s k H) (length a) (rev a))
    as (runes2 & Hrunes2 & Ha).
  pose proof (trimWith_done spaceRuneRev (fun r => In (rev r) spaces)
                (fun s k H => spaceRuneRev_sound s k H) (length a) (rev a)) as Hright.
  rewrite length_rev in Hright. specialize (Hright (le_n _)).
  set (u := trimWith spaceRuneRev (length a) (rev a)) in *.
  assert (Hb : trimRight a = rev u) by reflexivity.
  assert (Hsplit : a = rev u ++ concat (map (@rev ascii) (rev runes2))).
  { rewrite <- (rev_involutive a), Ha, rev_app_distr. by rewrite rev_concat_runes. }
  exists (concat runes1), (concat (map (@rev ascii) (rev runes2))).
  rewrite Hb, <- Hsplit. repeat split.
  - exact Hl.
  - by exists runes1.
  - eexists. split; [| reflexivity].
    apply List.Forall_forall. intros r Hr. apply in_map_iff in Hr as (r' & <- & Hr').
    apply in_rev in Hr'. rewrite List.Forall_forall in Hrunes2. by apply Hrunes2.
  - intros r rest Hr Heq.
    assert (Hzero : spaceRune (rev u) = 0).
    { apply (spaceRune_prefix _ (concat (map (@rev ascii) (rev runes2)))).
      by rewrite <- Hsplit. }
    rewrite Heq in Hzero. destruct (spaceRune_complete r rest Hr) as [Hlen Hne].
    congruence.
  - intros r rest Hr Heq.
    assert (Hu : u = rev r ++ rev rest).
    { rewrite <- (rev_involutive u), Heq. apply rev_app_distr. }
    rewrite Hu in Hright.
    destruct (spaceRuneRev_complete r (rev rest) Hr) as [Hlen Hne]. congruence.
Qed.

End WhiteSpace.

(** ** Partition resolution *)

Section MyNS.

Variable E : Env.

(** C10. [myNS] returns [ErrNoNS] exactly when reading the namespace file
    fails with an error [os.IsNotExist] accepts; every other read error comes
    back unchanged; when the read succeeds the result is the contents of the
    file without the white space at its two ends: the contents are some white
    space, the result, and some white space again, and the result neither
    begins nor ends with a white-space code point.  In each case the state
    left is the one the read left. *)
Theorem myNS_spec (w : World E) :
  (result (myNS E w) = Returned (inr ErrNoNS) <->
     exists err w', ReadFile E namespacePath w = (inr err, w') /\
                    os.IsNotExist err = true) /\
  (forall err w', ReadFile E namespacePath w = (inr err, w') ->
     os.IsNotExist err = false ->
     myNS E w = MkRun (Returned (inr (LibError err))) w'
                  [EvReadFile namespacePath (Some err)]) /\
  (forall nsBytes w', ReadFile E namespacePath w = (inl nsBytes, w') ->
     unicode.Trimmed nsBytes (strings.TrimSpace nsBytes) /\
     myNS E w = MkRun (Returned (inl (strings.TrimSpace nsBytes))) w'
                  [EvReadFile namespacePath None;
                   EvLog InfoLevel ("found namespace: " +:+ strings.TrimSpace nsBytes)]).
Proof.
  rewrite myNS_run.
  destruct (ReadFile E namespacePath w) as [[nsBytes | err] w1] eqn:Hread.
  - cbn. split; [| split].
    + split; [discriminate |]. intros (err & w' & Heq & _). discriminate.
    + intros err w' Heq. discriminate.
    + intros nsBytes' w' Heq. injection Heq as <- <-.
      split; [apply TrimSpace_Trimmed | reflexivity].
  - cbn. split; [| split].
    + destruct (os.IsNotExist err) eqn:Hne; cbn.
      * split; [| reflexivity]. intros _. exists err, w1. auto.
      * split; [discriminate |].
        intros (err' & w' & Heq & Hne'). injection Heq as <- <-. congruence.
    + intros err' w' Heq Hne. injection Heq as <- <-. rewrite Hne. reflexivity.
    + intros nsBytes w' Heq. discriminate.
Qed.

End MyNS.

Lemma myNS_spec_witness :
  result (myNS Fake.env (Fake.local "laptop")) = Returned (inr ErrNoNS) /\
  result (myNS Fake.env (Fake.cluster "pod-a" "uid-a" [] [])) = Returned (inl "default") /\
  unicode.Trimmed "
   default
" "default".
Proof.
  split; [| split].
  - apply (myNS_spec Fake.env (Fake.local "laptop")).
    exists (PathError "open" namespacePath ENOENT), (Fake.local "laptop").
    split; reflexivity.
  - destruct (myNS_spec Fake.env (Fake.cluster "pod-a" "uid-a" [] [])) as (_ & _ & H).
    destruct (H "default
" (Fake.cluster "pod-a" "uid-a" [] []) eq_refl) as [_ ->].
    reflexivity.
  - destruct (myNS_spec Fake.env
                (Fake.withNsFile "
   default
" (Fake.cluster "pod-a" "uid-a" [] []))) as (_ & _ & H).
    exact (proj1 (H _ _ eq_refl)).
Defined.

(** ** Election disabled *)

Section Disabled.

Variable E : Env.

(** C5. When the namespace file does not exist, [Become] returns [ErrNoNS]
    and [TryBecome] returns [nil]; neither issues any call after the failed
    read, so the API server is never contacted. *)
Theorem no_namespace_disables (fuel : nat) (name : string) (w w' : World E)
    (err : lib_error) :
  ReadFile E namespacePath w = (inr err, w') ->
  os.IsNotExist err = true ->
  Become E fuel name w =
    MkRun (Returned (Some ErrNoNS)) w'
      [EvLog InfoLevel "trying to become the leader";
       EvReadFile namespacePath (Some err)] /\
  TryBecome E fuel name w =
    MkRun (Returned None) w'
      [EvLog InfoLevel "trying to become the leader";
       EvReadFile namespacePath (Some err);
       EvLog WarnLevel "leader election disabled; no namespace was detected"] /\
  count isStoreCall (events (Become E fuel name w)) = 0 /\
  count isStoreCall (events (TryBecome E fuel name w)) = 0.
Proof.
  intros Hread Hne.
  assert (HB : Become E fuel name w =
    MkRun (Returned (Some ErrNoNS)) w'
      [EvLog InfoLevel "trying to become the leader";
       EvReadFile namespacePath (Some err)]).
  { unfold Become, myNS. run. rewrite Hread. cbn. rewrite Hne. reflexivity. }
  assert (HT : TryBecome E fuel name w =
    MkRun (Returned None) w'
      [EvLog InfoLevel "trying to become the leader";
       EvReadFile namespacePath (Some err);
       EvLog WarnLevel "leader election disabled; no namespace was detected"]).
  { unfold TryBecome. unfold bind at 1. rewrite HB. reflexivity. }
  rewrite HB, HT. repeat split.
Qed.

End Disabled.

Lemma no_namespace_disables_witness :
  result (Become Fake.env 1 "app-lock" (Fake.local "laptop")) = Returned (Some ErrNoNS) /\
  result (TryBecome Fake.env 1 "app-lock" (Fake.local "laptop")) = Returned None.
Proof.
  destruct (no_namespace_disables Fake.env 1 "app-lock"
              (Fake.local "laptop") (Fake.local "laptop")
              (PathError "open" namespacePath ENOENT)
              eq_refl eq_refl) as (HB & HT & _).
  rewrite HB, HT. split; reflexivity.
Defined.

(** ** Restart and first election *)

Section Scenarios.

Variable E : Env.

Lemma ownerLogs_logs owner refs :
  Forall (fun ev => isLog ev = true) (ownerLogs owner refs).
Proof.
  induction refs as [| r rest IH]; cbn; [constructor |].
  destruct (sameName owner r); repeat constructor. exact IH.
Qed.

Lemma count_logs p (t : list Event) :
  (forall l msg, p (EvLog l msg) = false) ->
  Forall (fun ev => isLog ev = true) t -> count p t = 0.
Proof.
  intros Hp. induction 1 as [| ev t Hev _ IH]; [reflexivity |].
  destruct ev; try discriminate. unfold count in *. cbn. by rewrite Hp.
Qed.

Lemma count_cons p ev (t : list Event) :
  count p (ev :: t) = (if p ev then 1 else 0) + count p t.
Proof. unfold count. cbn. by destruct (p ev). Qed.

Lemma sameName_refl owner : sameName owner owner = true.
Proof. unfold sameName. apply String.eqb_refl. Qed.

(** C4. When the lock record read at the start carries the caller's own
    owner reference, [Become] returns [nil] for every amount of fuel, in the
    state the read left: after the read it only writes log lines, and it
    issues no create. *)
Theorem restart_is_idempotent (fuel : nat) (name : string) (w w' w'' : World E)
    (ns : string) (client : Clientset E) (host : string) (myPod : corev1.Pod)
    (record : corev1.ConfigMap) :
  Identified E w ns client host myPod w' ->
  ConfigMapsGet E client ns name w' = (inl record, w'') ->
  In (podRef myPod) (corev1.GetOwnerReferences record) ->
  result (Become E fuel name w) = Returned None /\
  final (Become E fuel name w) = w'' /\
  count isCreate (events (Become E fuel name w)) = 0 /\
  exists logs, Forall (fun ev => isLog ev = true) logs /\
    events (Become E fuel name w) =
      preamble ns host ++ EvConfigMapsGet ns name None :: logs.
Proof.
  intros Hid Hget Hin.
  rewrite (Become_found E fuel name w w' ns client host myPod Hid record w'' Hget).
  cbn zeta.
  assert (Hex : existsb (sameName (podRef myPod)) (corev1.GetOwnerReferences record) = true).
  { apply existsb_exists. exists (podRef myPod). split; [exact Hin | apply sameName_refl]. }
  rewrite Hex. cbn [result final events]. repeat split.
  - rewrite count_app, count_cons.
    rewrite (count_logs isCreate (ownerLogs _ _)); auto using ownerLogs_logs.
  - eexists. split; [apply ownerLogs_logs | reflexivity].
Qed.

(** C6. When the read at the start answers NotFound and the first create
    succeeds, [Become] returns [nil] after exactly that one create: the
    ownership check writes nothing, and the trace is the read, the create and
    their two log lines. *)
Theorem first_election (fuel : nat) (name : string) (w w' w'' w3 : World E)
    (ns : string) (client : Clientset E) (host : string) (myPod : corev1.Pod)
    (err : lib_error) (created : corev1.ConfigMap) :
  Identified E w ns client host myPod w' ->
  ConfigMapsGet E client ns name w' = (inr err, w'') ->
  apierrors.IsNotFound err = true ->
  ConfigMapsCreate E client ns (lockRecord name ns (podRef myPod)) w'' = (inl created, w3) ->
  Become E (S fuel) name w =
    MkRun (Returned None) w3
      (preamble ns host ++
       [EvConfigMapsGet ns name (Some err);
        EvLog InfoLevel "No pre-existing lock was found.";
        EvConfigMapsCreate ns (lockRecord name ns (podRef myPod)) None;
        EvLog InfoLevel "Became the leader."]) /\
  count isCreate (events (Become E (S fuel) name w)) = 1.
Proof.
  intros Hid Hget Hnf Hcreate.
  assert (HB : Become E (S fuel) name w =
    MkRun (Returned None) w3
      (preamble ns host ++
       [EvConfigMapsGet ns name (Some err);
        EvLog InfoLevel "No pre-existing lock was found.";
        EvConfigMapsCreate ns (lockRecord name ns (podRef myPod)) None;
        EvLog InfoLevel "Became the leader."])).
  { rewrite (Become_not_found E (S fuel) name w w' ns client host myPod Hid err w'' Hget Hnf).
    rewrite createLoop_S, Hcreate. unfold prepend. cbn [result final events].
    by rewrite <- app_assoc. }
  split; [exact HB |]. rewrite HB. reflexivity.
Qed.

End Scenarios.

(** The in-memory cluster answers the identity questions. *)
Lemma cluster_identified host uid cms sched :
  Identified Fake.env (Fake.cluster host uid cms sched) "default" tt host
    (Fake.pod "default" host uid) (Fake.cluster host uid cms sched).
Proof.
  exists "default
", tt.
  do 4 exists (Fake.cluster host uid cms sched).
  repeat split.
  cbn. unfold Fake.podsGet. cbn.
  by rewrite lookup_singleton_eq.
Qed.

Lemma restart_is_idempotent_witness :
  result (Become Fake.env 0 "app-lock"
            (Fake.cluster "pod-a" "uid-a"
               [Fake.lock "default" "app-lock" [Fake.ownerOf "pod-a" "uid-a"]] []))
    = Returned None.
Proof.
  eapply (restart_is_idempotent Fake.env 0 "app-lock").
  - apply cluster_identified.
  - reflexivity.
  - left. reflexivity.
Defined.

Lemma first_election_witness :
  count isCreate
    (events (Become Fake.env 1 "app-lock" (Fake.cluster "pod-a" "uid-a" [] []))) = 1.
Proof.
  eapply (first_election Fake.env 0 "app-lock").
  - apply cluster_identified.
  - reflexivity.
  - reflexivity.
  - reflexivity.
Defined.

(** ** Every run follows one of the four paths *)

Section Traces.

Variable E : Env.

Lemma Become_path fuel name (w : World E) : Path E fuel name (Become E fuel name w).
Proof.
  destruct (Become_identity E name w)
    as [(ns & client & host & myPod & w' & Hid)
       | (err & ns & host & e & wf & t & Hrun & Hev & Hlast & Herr & _)].
  2:{ rewrite Hrun. by eapply PathUnresolved. }
  destruct (ConfigMapsGet E client ns name w') as [[record | err] w''] eqn:Hget.
  - rewrite (Become_found E fuel name w w' ns client host myPod Hid record w'' Hget).
    cbn zeta. destruct (existsb _ _).
    + apply PathRestart, ownerLogs_logs.
    + apply PathLoop; [apply ownerLogs_logs | discriminate].
  - destruct (apierrors.IsNotFound err) eqn:Hnf.
    + rewrite (Become_not_found E fuel name w w' ns client host myPod Hid err w'' Hget Hnf).
      apply PathLoop; [repeat constructor | congruence].
    + rewrite (Become_get_fatal E fuel name w w' ns client host myPod Hid err w'' Hget Hnf).
      by apply PathReadFailed.
Qed.

(** An event that stands out in a trace is not in a head where none does. *)
Lemma skip_head (P : Event -> Prop) (h t pre post : list Event) ev :
  Forall (fun x => ~ P x) h -> P ev ->
  h ++ t = pre ++ ev :: post ->
  exists pre', pre = h ++ pre' /\ t = pre' ++ ev :: post.
Proof.
  intros Hh Hev. revert pre. induction Hh as [| x h Hx _ IH]; intros pre Heq.
  - by exists pre.
  - destruct pre as [| y pre]; cbn in Heq.
    + injection Heq as -> _. contradiction.
    + injection Heq as -> Heq. destruct (IH pre Heq) as (pre' & -> & ->).
      by exists pre'.
Qed.

Lemma not_in_head (P : Event -> Prop) (h pre post : list Event) ev :
  Forall (fun x => ~ P x) h -> P ev -> h <> pre ++ ev :: post.
Proof.
  intros Hh Hev Heq. rewrite <- (app_nil_r h) in Heq.
  destruct (skip_head P h [] pre post ev Hh Hev Heq) as (pre' & _ & Hnil).
  by destruct pre'.
Qed.

Lemma Forall_weaken (P Q : Event -> Prop) (t : list Event) :
  (forall ev, P ev -> Q ev) -> Forall P t -> Forall Q t.
Proof. intros HPQ. induction 1; constructor; auto. Qed.

Lemma head_not_fatal ns host name answer logs :
  Forall (fun ev => isLog ev = true) logs ->
  (forall err, answer = Some err -> apierrors.IsNotFound err = true) ->
  Forall (fun ev => ~ is_Some (fatalAnswer ev))
    (preamble ns host ++ EvConfigMapsGet ns name answer :: logs).
Proof.
  intros Hlogs Hanswer. apply Forall_app. split; [| constructor].
  - unfold preamble. repeat constructor; cbn; by intros [? ?].
  - cbn. destruct answer as [err |]; [| by intros [? ?]].
    rewrite (Hanswer err eq_refl). by intros [? ?].
  - eapply Forall_weaken; [| exact Hlogs].
    intros [] Hlog; try discriminate. by intros [? ?].
Qed.

Lemma LoopTrace_fatal ns cm t r :
  LoopTrace ns cm t r ->
  forall pre ev post err,
    t = pre ++ ev :: post -> fatalAnswer ev = Some err ->
    r = Returned (Some (LibError err)) /\
    post = [EvLog ErrorLevel "unknown error creating configmap"].
Proof.
  induction 1 as [| | err0 Hex | err0 t r Hex Hloop IH]; intros pre ev post err Heq Hfatal.
  - by destruct pre.
  - exfalso. revert Heq.
    apply (not_in_head (fun x => is_Some (fatalAnswer x))); [| by rewrite Hfatal].
    repeat constructor; by intros [? ?].
  - destruct pre as [| a pre]; cbn in Heq.
    + injection Heq as <- <-. cbn in Hfatal. rewrite Hex in Hfatal.
      by injection Hfatal as ->.
    + exfalso. injection Heq as _ Heq. revert Heq.
      apply (not_in_head (fun x => is_Some (fatalAnswer x))); [| by rewrite Hfatal].
      repeat constructor; by intros [? ?].
  - destruct (skip_head (fun x => is_Some (fatalAnswer x))
                (conflictTurn ns cm err0) t pre post ev) as (pre' & -> & Ht).
    + unfold conflictTurn. repeat constructor; cbn; rewrite ?Hex; by intros [? ?].
    + by rewrite Hfatal.
    + exact Heq.
    + by apply (IH pre' ev post err).
Qed.

(** C3. Wherever a run of [Become] holds a read that failed otherwise than
    by NotFound, or a create that failed otherwise than by AlreadyExists,
    [Become] returns that very error and all it does after the failed call
    is write one line in the log at error level: no retry, no further call,
    no sleep. *)
Theorem fatal_is_final (fuel : nat) (name : string) (w : World E)
    (pre post : list Event) (ev : Event) (err : lib_error) :
  events (Become E fuel name w) = pre ++ ev :: post ->
  fatalAnswer ev = Some err ->
  result (Become E fuel name w) = Returned (Some (LibError err)) /\
  exists msg, post = [EvLog ErrorLevel msg].
Proof.
  intros Heq Hfatal.
  assert (Hev : is_Some (fatalAnswer ev)) by (by rewrite Hfatal).
  destruct (Become_path fuel name w)
    as [r err0 ns host e0 Hres Hid Hlast Herr0 | ns host logs wf Hlogs | ns host err0 wf Hnf
        | ns host client owner answer logs wl Hlogs Hanswer].
  - exfalso. revert Heq.
    apply (not_in_head (fun x => is_Some (fatalAnswer x))); [| exact Hev].
    eapply Forall_weaken; [| exact Hid].
    intros [] Hx; try discriminate; by intros [? ?].
  - exfalso. revert Heq. cbn [events].
    apply (not_in_head (fun x => is_Some (fatalAnswer x))); [| exact Hev].
    apply head_not_fatal; [exact Hlogs | discriminate].
  - cbn [events result] in *.
    assert (Hh : Forall (fun x => ~ is_Some (fatalAnswer x)) (preamble ns host)).
    { unfold preamble. repeat constructor; by intros [? ?]. }
    destruct (skip_head _ _ _ _ _ _ Hh Hev Heq) as (pre' & -> & Ht).
    destruct pre' as [| a pre']; cbn in Ht.
    + injection Ht as <- <-. cbn in Hfatal. rewrite Hnf in Hfatal.
      injection Hfatal as ->. eauto.
    + exfalso. injection Ht as _ Ht. revert Ht.
      apply (not_in_head (fun x => is_Some (fatalAnswer x))); [| exact Hev].
      repeat constructor; by intros [? ?].
  - unfold prepend in *. cbn [events result] in *.
    pose proof (head_not_fatal ns host name answer logs Hlogs Hanswer) as Hh.
    destruct (skip_head _ _ _ _ _ _ Hh Hev Heq) as (pre' & -> & Ht).
    destruct (LoopTrace_fatal _ _ _ _ (createLoop_trace E fuel client ns _ wl)
                pre' ev post err Ht Hfatal) as [-> ->].
    eauto.
Qed.

(** In a run of the creation loop every event is a creation of the one
    record, a log line or a sleep. *)
Lemma LoopTrace_election ns host name cm t r :
  LoopTrace ns cm t r ->
  Forall (fun ev => electionEvent ns host name cm ev = true) t.
Proof.
  induction 1; unfold conflictTurn; cbn [app]; identity_events; assumption.
Qed.

(** C8. Of the API server, a run of [Become] asks only for the caller's
    pod, for the lock of the given name and for the creation of one record,
    the same at every attempt: the name, the namespace and the owner
    reference it carries are fixed before the first attempt.  No update and
    no delete is ever issued. *)
Theorem only_reads_and_creates (fuel : nat) (name : string) (w : World E) :
  exists ns host owner,
    Forall (fun ev => electionEvent ns host name (lockRecord name ns owner) ev = true)
           (events (Become E fuel name w)).
Proof.
  destruct (Become_path fuel name w)
    as [r err0 ns host e0 Hres Hid Hlast Herr0 | ns host logs wf Hlogs | ns host err0 wf Hnf
        | ns host client owner answer logs wl Hlogs Hanswer].
  - exists ns, host, (podRef (Fake.pod ns host "")).
    eapply Forall_weaken; [| exact Hid]. intros ev. apply identityEvent_election.
  - exists ns, host, (podRef (Fake.pod ns host "")). cbn [events].
    apply Forall_app. split.
    + eapply Forall_weaken; [| apply preamble_identity].
      intros ev. apply identityEvent_election.
    + constructor; [cbn; by apply bool_decide_eq_true_2 |].
      eapply Forall_weaken; [| exact Hlogs]. by intros [].
  - exists ns, host, (podRef (Fake.pod ns host "")). cbn [events].
    apply Forall_app. split.
    + eapply Forall_weaken; [| apply preamble_identity].
      intros ev. apply identityEvent_election.
    + identity_events.
  - exists ns, host, owner. unfold prepend. cbn [events].
    rewrite !Forall_app. repeat split.
    + eapply Forall_weaken; [| apply preamble_identity].
      intros ev. apply identityEvent_election.
    + constructor; [cbn; by apply bool_decide_eq_true_2 |].
      eapply Forall_weaken; [| exact Hlogs]. by intros [].
    + eapply LoopTrace_election, createLoop_trace.
Qed.

End Traces.

Lemma fatal_is_final_witness :
  result (Become Fake.env 3 "app-lock"
            (Fake.withRbac [(Fake.VerbGet, Fake.ResPods); (Fake.VerbGet, Fake.ResConfigMaps)]
               (Fake.cluster "pod-a" "uid-a" [] [])))
    = Returned (Some (LibError Fake.forbidden)).
Proof.
  eapply (fatal_is_final Fake.env 3 "app-lock" _
            (preamble "default" "pod-a" ++
             [EvConfigMapsGet "default" "app-lock"
                (Some (StatusError metav1.StatusReasonNotFound "configmap not found"));
              EvLog InfoLevel "No pre-existing lock was found."])
            [EvLog ErrorLevel "unknown error creating configmap"]
            (EvConfigMapsCreate "default"
               (lockRecord "app-lock" "default" (Fake.ownerOf "pod-a" "uid-a"))
               (Some Fake.forbidden))).
  - reflexivity.
  - reflexivity.
Defined.

(** ** Conflicts *)

Section Conflicts.

Variable E : Env.

Lemma LoopTrace_no_get ns cm t r : LoopTrace ns cm t r -> count isGet t = 0.
Proof.
  induction 1 as [| | err Hex | err t r Hex _ IH]; try reflexivity.
  by rewrite count_app, IH.
Qed.

Lemma count_suffix p (pre post : list Event) ev :
  count p (pre ++ ev :: post) = 0 -> count p post = 0.
Proof. rewrite count_app, count_cons. lia. Qed.

Lemma LoopTrace_retry ns cm t r :
  LoopTrace ns cm t r ->
  forall pre ns' cm' err post,
    t = pre ++ EvConfigMapsCreate ns' cm' (Some err) :: post ->
    apierrors.IsAlreadyExists err = true ->
    exists rest,
      post = EvLog InfoLevel "Not the leader. Waiting." :: EvSleep time.Second :: rest /\
      ((rest = [] /\ r = OutOfFuel) \/
       (exists answer rest', rest = EvConfigMapsCreate ns' cm' answer :: rest')).
Proof.
  induction 1 as [| | err0 Hex | err0 t r Hex Hloop IH];
    intros pre ns' cm' err post Heq Herr.
  - by destruct pre.
  - destruct pre as [| a [| b [| c pre]]]; discriminate.
  - destruct pre as [| a [| b [| c pre]]]; try discriminate.
    injection Heq as _ _ <- _. congruence.
  - destruct pre as [| a [| b [| c pre]]]; cbn in Heq; try discriminate.
    + injection Heq as <- <- <- <-. eexists. split; [reflexivity |].
      destruct Hloop; unfold conflictTurn; cbn [app]; eauto.
    + injection Heq as _ _ _ Heq. by apply (IH pre ns' cm' err post).
Qed.

(** C2, as the code has it.  After a create answered AlreadyExists,
    [Become] writes a log line, sleeps for one second and issues the same
    create again (or the fuel ends there).  The lock is not read again: the
    run holds one read, before the first create, and none after it. *)
Theorem conflict_retries_create (fuel : nat) (name : string) (w : World E)
    (pre post : list Event) (ns : string) (cm : corev1.ConfigMap) (err : lib_error) :
  events (Become E fuel name w) = pre ++ EvConfigMapsCreate ns cm (Some err) :: post ->
  apierrors.IsAlreadyExists err = true ->
  count isGet (events (Become E fuel name w)) = 1 /\
  count isGet post = 0 /\
  exists rest,
    post = EvLog InfoLevel "Not the leader. Waiting." :: EvSleep time.Second :: rest /\
    ((rest = [] /\ result (Become E fuel name w) = OutOfFuel) \/
     (exists answer rest', rest = EvConfigMapsCreate ns cm answer :: rest')).
Proof.
  intros Heq Herr.
  set (P := fun x => isCreate x = true).
  assert (Hev : P (EvConfigMapsCreate ns cm (Some err))) by reflexivity.
  assert (Hpre : forall ns host,
             Forall (fun x => ~ P x) (preamble ns host)).
  { intros. unfold preamble, P. repeat constructor; discriminate. }
  destruct (Become_path E fuel name w)
    as [r err0 ns0 host e0 Hres Hid Hlast Herr0 | ns0 host logs wf Hlogs | ns0 host err0 wf Hnf
        | ns0 host client owner answer logs wl Hlogs Hanswer].
  - exfalso. revert Heq. apply (not_in_head P); [| exact Hev].
    eapply Forall_weaken; [| exact Hid]. intros [] Hx; try discriminate; by unfold P.
  - exfalso. revert Heq. cbn [events]. apply (not_in_head P); [| exact Hev].
    apply Forall_app. split; [apply Hpre |]. constructor; [by unfold P |].
    eapply Forall_weaken; [| exact Hlogs]. intros [] Hx; try discriminate; by unfold P.
  - exfalso. revert Heq. cbn [events]. apply (not_in_head P); [| exact Hev].
    apply Forall_app. split; [apply Hpre |]. repeat constructor; by unfold P.
  - unfold prepend in *. cbn [events result] in *.
    assert (Hh : Forall (fun x => ~ P x)
                   (preamble ns0 host ++ EvConfigMapsGet ns0 name answer :: logs)).
    { apply Forall_app. split; [apply Hpre |]. constructor; [by unfold P |].
      eapply Forall_weaken; [| exact Hlogs].
      intros [] Hx; try discriminate; by unfold P. }
    destruct (skip_head _ _ _ _ _ _ Hh Hev Heq) as (pre' & -> & Ht).
    pose proof (createLoop_trace E fuel client ns0 (lockRecord name ns0 owner) wl) as Hloop.
    pose proof (LoopTrace_no_get _ _ _ _ Hloop) as Hnoget.
    repeat split.
    + rewrite !count_app, count_cons, Hnoget.
      rewrite (count_logs isGet logs); [| reflexivity | exact Hlogs].
      reflexivity.
    + rewrite Ht in Hnoget. by apply count_suffix in Hnoget.
    + destruct (LoopTrace_retry _ _ _ _ Hloop pre' ns cm err post Ht Herr)
        as (rest & Hpost & Hrest).
      exists rest. split; [exact Hpost | exact Hrest].
Qed.



End Conflicts.

Lemma conflict_retries_create_witness :
  count isGet (events (Become Fake.env 2 "app-lock" Fake.contested)) = 1.
Proof.
  eapply (conflict_retries_create Fake.env 2 "app-lock" Fake.contested
            (preamble "default" "pod-b" ++
             [EvConfigMapsGet "default" "app-lock" None;
              EvLog InfoLevel "Found existing lock from pod-a"])
            (EvLog InfoLevel "Not the leader. Waiting." :: EvSleep time.Second ::
             conflictTurn "default"
               (lockRecord "app-lock" "default" (Fake.ownerOf "pod-b" "uid-b"))
               (StatusError metav1.StatusReasonAlreadyExists "configmap already exists"))).
  - reflexivity.
  - reflexivity.
Defined.

(** C2, as the specification states it, fails: in the contested cluster the create
    that follows the first conflict and its sleep comes with no read in
    between, and the whole run holds a single read of the lock. *)
Lemma retry_does_not_read_again :
  events (Become Fake.env 2 "app-lock" Fake.contested) =
    preamble "default" "pod-b" ++
    [EvConfigMapsGet "default" "app-lock" None;
     EvLog InfoLevel "Found existing lock from pod-a";
     EvConfigMapsCreate "default"
       (lockRecord "app-lock" "default" (Fake.ownerOf "pod-b" "uid-b"))
       (Some (StatusError metav1.StatusReasonAlreadyExists "configmap already exists"));
     EvLog InfoLevel "Not the leader. Waiting.";
     EvSleep time.Second;
     EvConfigMapsCreate "default"
       (lockRecord "app-lock" "default" (Fake.ownerOf "pod-b" "uid-b"))
       (Some (StatusError metav1.StatusReasonAlreadyExists "configmap already exists"));
     EvLog InfoLevel "Not the leader. Waiting.";
     EvSleep time.Second] /\
  count isGet (events (Become Fake.env 2 "app-lock" Fake.contested)) = 1 /\
  count isCreate (events (Become Fake.env 2 "app-lock" Fake.contested)) = 2.
Proof. repeat split. Qed.


(** ** Self-recognition *)

Section Recognition.

Variable E : Env.

Lemma sameName_false owner ref :
  metav1.RefName ref <> metav1.RefName owner -> sameName owner ref = false.
Proof. intros H. unfold sameName. by apply String.eqb_neq. Qed.

Lemma sameName_true owner ref :
  metav1.RefName ref = metav1.RefName owner -> sameName owner ref = true.
Proof. intros H. unfold sameName. by apply String.eqb_eq. Qed.

Lemma ownerLogs_others owner refs :
  Forall (fun r => metav1.RefName r <> metav1.RefName owner) refs ->
  ownerLogs owner refs = map fromLog refs /\
  existsb (sameName owner) refs = false.
Proof.
  induction 1 as [| r refs Hr _ [IHl IHe]]; [by split |].
  cbn [ownerLogs existsb map]. rewrite (sameName_false owner r Hr), IHl, IHe.
  by split.
Qed.

Lemma ownerLogs_first owner before ref after :
  Forall (fun r => metav1.RefName r <> metav1.RefName owner) before ->
  metav1.RefName ref = metav1.RefName owner ->
  ownerLogs owner (before ++ ref :: after) =
    map fromLog before ++
    [EvLog InfoLevel "Found existing lock with my name. I was likely restarted.";
     EvLog InfoLevel "Continuing as the leader."] /\
  existsb (sameName owner) (before ++ ref :: after) = true.
Proof.
  intros Hbefore Href. induction Hbefore as [| r before Hr _ [IHl IHe]].
  - cbn. by rewrite (sameName_true owner ref Href).
  - cbn [app ownerLogs existsb map]. rewrite (sameName_false owner r Hr), IHl, IHe.
    by split.
Qed.

Lemma LoopTrace_creates ns cm t r :
  LoopTrace ns cm t r -> r <> OutOfFuel -> 1 <= count isCreate t.
Proof.
  induction 1 as [| | err Hex | err t r Hex _ IH]; intros Hr;
    [done | cbn; lia | cbn; lia |].
  rewrite count_app. specialize (IH Hr). lia.
Qed.

Lemma Become_found_others (fuel : nat) (name : string) (w w' w'' : World E)
    (ns : string) (client : Clientset E) (host : string) (myPod : corev1.Pod)
    (record : corev1.ConfigMap) :
  Identified E w ns client host myPod w' ->
  ConfigMapsGet E client ns name w' = (inl record, w'') ->
  Forall (fun r => metav1.RefName r <> metav1.Name (corev1.PodMeta myPod))
         (corev1.GetOwnerReferences record) ->
  Become E fuel name w =
    prepend (preamble ns host ++ EvConfigMapsGet ns name None ::
             map fromLog (corev1.GetOwnerReferences record))
      (createLoop E fuel client ns (lockRecord name ns (podRef myPod)) w'').
Proof.
  intros Hid Hget Hall.
  rewrite (Become_found E fuel name w w' ns client host myPod Hid record w'' Hget).
  cbn zeta. by destruct (ownerLogs_others (podRef myPod) _ Hall) as [-> ->].
Qed.

(** C9. The ownership check goes through the owner references of the
    record found, in order, and stops at the first one that carries the name
    of the caller's pod: [Become] then returns [nil], having logged the
    references that came before and no other.  Where no reference carries
    that name, and so where there is none at all, every reference is logged
    and the creation loop is entered. *)
Theorem self_recognition_by_name (fuel : nat) (name : string) (w w' w'' : World E)
    (ns : string) (client : Clientset E) (host : string) (myPod : corev1.Pod)
    (record : corev1.ConfigMap) :
  Identified E w ns client host myPod w' ->
  ConfigMapsGet E client ns name w' = (inl record, w'') ->
  (forall before ref after,
     corev1.GetOwnerReferences record = before ++ ref :: after ->
     Forall (fun r => metav1.RefName r <> metav1.Name (corev1.PodMeta myPod)) before ->
     metav1.RefName ref = metav1.Name (corev1.PodMeta myPod) ->
     Become E fuel name w =
       MkRun (Returned None) w''
         (preamble ns host ++ EvConfigMapsGet ns name None ::
          map fromLog before ++
          [EvLog InfoLevel "Found existing lock with my name. I was likely restarted.";
           EvLog InfoLevel "Continuing as the leader."])) /\
  (Forall (fun r => metav1.RefName r <> metav1.Name (corev1.PodMeta myPod))
          (corev1.GetOwnerReferences record) ->
   Become E fuel name w =
     prepend (preamble ns host ++ EvConfigMapsGet ns name None ::
              map fromLog (corev1.GetOwnerReferences record))
       (createLoop E fuel client ns (lockRecord name ns (podRef myPod)) w'')).
Proof.
  intros Hid Hget.
  rewrite (Become_found E fuel name w w' ns client host myPod Hid record w'' Hget).
  cbn zeta. split.
  - intros before ref after Hrefs Hbefore Href. rewrite Hrefs.
    destruct (ownerLogs_first (podRef myPod) before ref after Hbefore Href) as [-> ->].
    reflexivity.
  - intros Hall.
    destruct (ownerLogs_others (podRef myPod) _ Hall) as [-> ->]. reflexivity.
Qed.

(** C1, as the code has it.  When the read at the start finds a record,
    [Become] takes the caller for its owner, returning [nil] without any
    create, exactly when one of the record's owner references carries the
    name of the caller's pod.  The UID of the reference plays no part. *)
Theorem recognition_is_by_name (fuel : nat) (name : string) (w w' w'' : World E)
    (ns : string) (client : Clientset E) (host : string) (myPod : corev1.Pod)
    (record : corev1.ConfigMap) :
  Identified E w ns client host myPod w' ->
  ConfigMapsGet E client ns name w' = (inl record, w'') ->
  (result (Become E fuel name w) = Returned None /\
   count isCreate (events (Become E fuel name w)) = 0) <->
  (exists ref, In ref (corev1.GetOwnerReferences record) /\
               metav1.RefName ref = metav1.Name (corev1.PodMeta myPod)).
Proof.
  intros Hid Hget.
  rewrite (Become_found E fuel name w w' ns client host myPod Hid record w'' Hget).
  cbn zeta.
  destruct (existsb _ _) eqn:Hex.
  - split.
    + intros _. apply existsb_exists in Hex as (ref & Hin & Hname).
      exists ref. split; [exact Hin |]. unfold sameName in Hname.
      by apply String.eqb_eq in Hname.
    + intros _. cbn [result events]. split; [reflexivity |].
      rewrite count_app, count_cons.
      rewrite (count_logs isCreate (ownerLogs _ _)); auto using ownerLogs_logs.
  - split.
    + intros [Hres Hcount]. exfalso. unfold prepend in *. cbn [result events] in *.
      pose proof (createLoop_trace E fuel client ns
                    (lockRecord name ns (podRef myPod)) w'') as Hloop.
      apply LoopTrace_creates in Hloop; [| by rewrite Hres].
      rewrite count_app in Hcount. lia.
    + intros (ref & Hin & Hname). exfalso.
      assert (existsb (sameName (podRef myPod)) (corev1.GetOwnerReferences record) = true);
        [| congruence].
      apply existsb_exists. exists ref. split; [exact Hin |].
      by apply sameName_true.
Qed.

End Recognition.

Lemma self_recognition_by_name_witness :
  result (Become Fake.env 0 "app-lock"
            (Fake.cluster "pod-a" "uid-a"
               [Fake.lock "default" "app-lock"
                  [Fake.ownerOf "pod-x" "uid-x"; Fake.ownerOf "pod-a" "uid-a";
                   Fake.ownerOf "pod-y" "uid-y"]] []))
    = Returned None /\
  result (Become Fake.env 0 "app-lock"
            (Fake.cluster "pod-a" "uid-a" [Fake.lock "default" "app-lock" []] []))
    = OutOfFuel.
Proof.
  split.
  - destruct (self_recognition_by_name Fake.env 0 "app-lock" _ _ _ _ _ _ _
                (Fake.lock "default" "app-lock"
                   [Fake.ownerOf "pod-x" "uid-x"; Fake.ownerOf "pod-a" "uid-a";
                    Fake.ownerOf "pod-y" "uid-y"])
                (cluster_identified "pod-a" "uid-a"
                   [Fake.lock "default" "app-lock"
                      [Fake.ownerOf "pod-x" "uid-x"; Fake.ownerOf "pod-a" "uid-a";
                       Fake.ownerOf "pod-y" "uid-y"]] []) eq_refl) as [H _].
    rewrite (H [Fake.ownerOf "pod-x" "uid-x"] (Fake.ownerOf "pod-a" "uid-a")
               [Fake.ownerOf "pod-y" "uid-y"] eq_refl).
    + reflexivity.
    + repeat constructor. discriminate.
    + reflexivity.
  - destruct (self_recognition_by_name Fake.env 0 "app-lock" _ _ _ _ _ _ _
                (Fake.lock "default" "app-lock" [])
                (cluster_identified "pod-a" "uid-a"
                   [Fake.lock "default" "app-lock" []] []) eq_refl) as [_ H].
    rewrite H; [reflexivity | constructor].
Defined.

Lemma recognition_is_by_name_witness :
  result (Become Fake.env 1 "app-lock" Fake.recreated) = Returned None /\
  count isCreate (events (Become Fake.env 1 "app-lock" Fake.recreated)) = 0.
Proof.
  apply (recognition_is_by_name Fake.env 1 "app-lock" Fake.recreated Fake.recreated
           Fake.recreated "default" tt "pod-a" (Fake.pod "default" "pod-a" "uid-2")
           (Fake.lock "default" "app-lock" [Fake.ownerOf "pod-a" "uid-1"])).
  - apply cluster_identified.
  - reflexivity.
  - exists (Fake.ownerOf "pod-a" "uid-1"). split; [by left | reflexivity].
Defined.

(** C1, as the specification states it, fails: the lock belongs to a pod of UID
    [uid-1], the caller is the pod of UID [uid-2] that took its name, and
    [Become] still returns [nil] without creating anything. *)
Lemma same_name_other_uid_is_recognised :
  Fake.pods Fake.recreated !! ("default", "pod-a")
    = Some (Fake.pod "default" "pod-a" "uid-2") /\
  Fake.configMaps Fake.recreated !! ("default", "app-lock")
    = Some (Fake.lock "default" "app-lock" [Fake.ownerOf "pod-a" "uid-1"]) /\
  metav1.RefUID (Fake.ownerOf "pod-a" "uid-1")
    <> metav1.UID (corev1.PodMeta (Fake.pod "default" "pod-a" "uid-2")) /\
  result (Become Fake.env 1 "app-lock" Fake.recreated) = Returned None /\
  count isCreate (events (Become Fake.env 1 "app-lock" Fake.recreated)) = 0.
Proof. repeat split; try by vm_compute. Qed.

(** ** What a caller can rely on *)

Section Results.

Variable E : Env.

(** X1. [TryBecome] is [Become] with [ErrNoNS] turned into [nil]: it leaves the
    same state, issues the same calls to the API server, returns what
    [Become] returns in every other case, and never returns [ErrNoNS]. *)
Theorem TryBecome_agrees (fuel : nat) (name : string) (w : World E) :
  result (TryBecome E fuel name w) =
    match result (Become E fuel name w) with
    | Returned (Some ErrNoNS) => Returned None
    | r => r
    end /\
  final (TryBecome E fuel name w) = final (Become E fuel name w) /\
  result (TryBecome E fuel name w) <> Returned (Some ErrNoNS) /\
  List.filter isStoreCall (events (TryBecome E fuel name w)) =
    List.filter isStoreCall (events (Become E fuel name w)).
Proof.
  unfold TryBecome, bind.
  destruct (Become E fuel name w) as [[[[| e] |] |] wf t]; cbn [result final events].
  - rewrite decide_True; [| reflexivity]. cbn.
    rewrite List.filter_app, app_nil_r. by repeat split.
  - rewrite decide_False; [| discriminate]. cbn.
    rewrite app_nil_r. by repeat split.
  - rewrite decide_False; [| discriminate]. cbn.
    rewrite app_nil_r. by repeat split.
  - by repeat split.
Qed.

Lemma LoopTrace_result ns cm t r :
  LoopTrace ns cm t r ->
  r = OutOfFuel \/ r = Returned None \/ exists e, r = Returned (Some (LibError e)).
Proof. induction 1; eauto. Qed.

Lemma Become_identified_result fuel name (w w' : World E) ns client host myPod :
  Identified E w ns client host myPod w' ->
  result (Become E fuel name w) <> Returned (Some ErrNoNS).
Proof.
  intros Hid.
  destruct (ConfigMapsGet E client ns name w') as [[record | err] w''] eqn:Hget.
  - rewrite (Become_found E fuel name w w' ns client host myPod Hid record w'' Hget).
    cbn zeta. destruct (existsb _ _); [discriminate |].
    cbn [prepend result].
    destruct (LoopTrace_result _ _ _ _
                (createLoop_trace E fuel client ns
                   (lockRecord name ns (podRef myPod)) w''))
      as [-> | [-> | [e ->]]]; discriminate.
  - destruct (apierrors.IsNotFound err) eqn:Hnf.
    + rewrite (Become_not_found E fuel name w w' ns client host myPod Hid err w'' Hget Hnf).
      cbn [prepend result].
      destruct (LoopTrace_result _ _ _ _
                  (createLoop_trace E fuel client ns
                     (lockRecord name ns (podRef myPod)) w''))
        as [-> | [-> | [e ->]]]; discriminate.
    + rewrite (Become_get_fatal E fuel name w w' ns client host myPod Hid err w'' Hget Hnf).
      discriminate.
Qed.

(** X2. [Become] returns [ErrNoNS] exactly when the namespace file does not
    exist: no failure of the API server, of the client configuration or of
    the host name comes out as [ErrNoNS]. *)
Theorem ErrNoNS_iff_no_namespace_file (fuel : nat) (name : string) (w : World E) :
  result (Become E fuel name w) = Returned (Some ErrNoNS) <->
  exists err w', ReadFile E namespacePath w = (inr err, w') /\
                 os.IsNotExist err = true.
Proof.
  destruct (Become_identity E name w)
    as [(ns & client & host & myPod & w' & Hid)
       | (err & ns & host & e & wf & t & Hrun & _ & _ & _ & Hiff)].
  - split.
    + intros Hres. by apply (Become_identified_result fuel name w w' ns client host myPod) in Hres.
    + intros (err & w1 & Hread & _).
      destruct Hid as (nsBytes & cfg & w1' & ? & ? & ? & Hread' & _). congruence.
  - rewrite Hrun. cbn [result]. rewrite <- Hiff. split; [by intros [= ->] | by intros ->].
Qed.

Lemma lastAnswer_app (t u : list Event) :
  lastAnswer (t ++ u) =
    match lastAnswer u with Some a => Some a | None => lastAnswer t end.
Proof.
  induction t as [| ev t IH]; cbn [app lastAnswer].
  - by destruct (lastAnswer u).
  - rewrite IH. by destruct (lastAnswer u).
Qed.

Lemma lastAnswer_logs (logs : list Event) :
  Forall (fun ev => isLog ev = true) logs -> lastAnswer logs = None.
Proof.
  induction 1 as [| ev logs Hev _ IH]; [reflexivity |].
  cbn [lastAnswer]. rewrite IH. by destruct ev.
Qed.

Lemma LoopTrace_last ns cm t r :
  LoopTrace ns cm t r ->
  match r with
  | Returned None => lastAnswer t = Some None
  | Returned (Some err) => exists e, err = LibError e /\ lastAnswer t = Some (Some e)
  | OutOfFuel => True
  end.
Proof.
  induction 1 as [| | err Hex | err t r Hex _ IH]; [done | done | by exists err |].
  rewrite lastAnswer_app. destruct r as [[e |] |]; [| by rewrite IH | done].
  destruct IH as (e' & -> & ->). by exists e'.
Qed.

(** X3. An error returned by [Become] is the error of the last call it issued,
    unchanged ([ErrNoNS] standing for the namespace file that does not
    exist): [Become] stops at the first failure it does not absorb. *)
Theorem error_is_of_last_call (fuel : nat) (name : string) (w : World E) (err : error) :
  result (Become E fuel name w) = Returned (Some err) ->
  exists e, lastAnswer (events (Become E fuel name w)) = Some (Some e) /\
            (err = LibError e \/ (err = ErrNoNS /\ os.IsNotExist e = true)).
Proof.
  destruct (Become_path E fuel name w)
    as [r err0 ns host e0 Hres Hid Hlast Herr0 | ns host logs wf Hlogs | ns host err0 wf Hnf
        | ns host client owner ans logs wl Hlogs Hanswer]; cbn [result events].
  - rewrite Hres. intros [= <-]. by exists e0.
  - discriminate.
  - intros [= <-]. exists err0. split; [| by left].
    by rewrite lastAnswer_app.
  - unfold prepend. cbn [result events]. intros Hres.
    pose proof (LoopTrace_last _ _ _ _
                  (createLoop_trace E fuel client ns (lockRecord name ns owner) wl)) as Hl.
    rewrite Hres in Hl. destruct Hl as (e & -> & Hl).
    exists e. split; [| by left]. by rewrite lastAnswer_app, Hl.
Qed.

Lemma LoopTrace_won ns cm t :
  LoopTrace ns cm t (Returned None) ->
  exists pre, t = pre ++ [EvConfigMapsCreate ns cm None;
                          EvLog InfoLevel "Became the leader."].
Proof.
  intros H. remember (Returned None) as r eqn:Hr.
  induction H as [| | err Hex | err t r Hex _ IH]; try discriminate.
  - by exists [].
  - destruct (IH Hr) as (pre & ->). exists (conflictTurn ns cm err ++ pre).
    by rewrite app_assoc.
Qed.

(** X4. [Become] returns [nil] only on the word of the API server: the last
    call of the run is the read that found the lock (and the caller's name
    on it), or a create of the lock of that name that succeeded. *)
Theorem leader_only_with_lock (fuel : nat) (name : string) (w : World E) :
  result (Become E fuel name w) = Returned None ->
  exists pre ns logs,
    Forall (fun ev => isLog ev = true) logs /\
    (events (Become E fuel name w) = pre ++ EvConfigMapsGet ns name None :: logs \/
     exists cm,
       metav1.Name (corev1.ObjectMeta cm) = name /\
       events (Become E fuel name w) = pre ++ EvConfigMapsCreate ns cm None :: logs).
Proof.
  destruct (Become_path E fuel name w)
    as [r err0 ns host e0 Hres Hid Hlast Herr0 | ns host logs wf Hlogs | ns host err0 wf Hnf
        | ns host client owner ans logs wl Hlogs Hanswer]; cbn [result events].
  - rewrite Hres. discriminate.
  - intros _. exists (preamble ns host), ns, logs. split; [exact Hlogs | by left].
  - discriminate.
  - unfold prepend. cbn [result events]. intros Hres.
    pose proof (createLoop_trace E fuel client ns (lockRecord name ns owner) wl) as Hloop.
    rewrite Hres in Hloop. apply LoopTrace_won in Hloop as (pre & ->).
    eexists _, ns, [EvLog InfoLevel "Became the leader."].
    split; [repeat constructor |]. right. exists (lockRecord name ns owner).
    split; [reflexivity |]. rewrite app_assoc. reflexivity.
Qed.

End Results.

Lemma error_is_of_last_call_witness :
  exists e,
    lastAnswer (events (Become Fake.env 3 "app-lock"
                          (Fake.withRbac [(Fake.VerbGet, Fake.ResPods)]
                             (Fake.cluster "pod-a" "uid-a" [] []))))
      = Some (Some e) /\
    (LibError Fake.forbidden = LibError e \/
     (LibError Fake.forbidden = ErrNoNS /\ os.IsNotExist e = true)).
Proof.
  exact (error_is_of_last_call Fake.env 3 "app-lock"
           (Fake.withRbac [(Fake.VerbGet, Fake.ResPods)]
              (Fake.cluster "pod-a" "uid-a" [] []))
           (LibError Fake.forbidden) eq_refl).
Defined.

Lemma leader_only_with_lock_witness :
  exists pre ns logs,
    Forall (fun ev => isLog ev = true) logs /\
    (events (Become Fake.env 1 "app-lock" (Fake.cluster "pod-a" "uid-a" [] []))
       = pre ++ EvConfigMapsGet ns "app-lock" None :: logs \/
     exists cm,
       metav1.Name (corev1.ObjectMeta cm) = "app-lock" /\
       events (Become Fake.env 1 "app-lock" (Fake.cluster "pod-a" "uid-a" [] []))
         = pre ++ EvConfigMapsCreate ns cm None :: logs).
Proof.
  exact (leader_only_with_lock Fake.env 1 "app-lock"
           (Fake.cluster "pod-a" "uid-a" [] []) eq_refl).
Defined.

(** ** Pacing and the record created *)

Section Pacing.

Variable E : Env.

Lemma filter_none (p : Event -> bool) (t : list Event) :
  Forall (fun ev => p ev = false) t -> List.filter p t = [].
Proof.
  induction 1 as [| ev t Hev _ IH]; [reflexivity |]. cbn. by rewrite Hev.
Qed.

Lemma count_none (p : Event -> bool) (t : list Event) :
  Forall (fun ev => p ev = false) t -> count p t = 0.
Proof. intros H. unfold count. by rewrite (filter_none p t H). Qed.

Lemma identity_no (p : Event -> bool) ns host (t : list Event) :
  (forall ev, identityEvent ns host ev = true -> p ev = false) ->
  Forall (fun ev => identityEvent ns host ev = true) t ->
  Forall (fun ev => p ev = false) t.
Proof. intros Hp. apply Forall_weaken, Hp. Qed.

Lemma logs_no (p : Event -> bool) (t : list Event) :
  (forall l msg, p (EvLog l msg) = false) ->
  Forall (fun ev => isLog ev = true) t ->
  Forall (fun ev => p ev = false) t.
Proof.
  intros Hp. apply Forall_weaken. intros [] Hev; try discriminate. apply Hp.
Qed.

Lemma LoopTrace_pacing ns cm t r :
  LoopTrace ns cm t r ->
  List.filter isSleep t = repeat (EvSleep time.Second) (count isConflict t) /\
  count isCreate t <= count isConflict t + 1 /\
  (r = OutOfFuel -> count isCreate t = count isConflict t).
Proof.
  induction 1 as [| | err Hex | err t r Hex _ (IHs & IHc & IHf)].
  - split; [reflexivity | split; [cbn; lia | reflexivity]].
  - split; [reflexivity | split; [cbn; lia | discriminate]].
  - split; [| split; [| discriminate]].
    + cbn. by rewrite Hex.
    + unfold count. cbn. rewrite Hex. cbn. lia.
  - rewrite List.filter_app, !count_app, IHs.
    assert (Hturn : count isConflict (conflictTurn ns cm err) = 1)
      by (cbn; by rewrite Hex).
    rewrite Hturn. repeat split; [cbn; lia |].
    intros Hr. rewrite (IHf Hr). reflexivity.
Qed.

(** X5. [Become] sleeps once after each create that met AlreadyExists, for one
    second each time, and at no other moment; it issues at most one create
    beyond those, the one that ends the loop. *)
Theorem one_second_per_conflict (fuel : nat) (name : string) (w : World E) :
  List.filter isSleep (events (Become E fuel name w)) =
    repeat (EvSleep time.Second) (count isConflict (events (Become E fuel name w))) /\
  count isCreate (events (Become E fuel name w)) <=
    count isConflict (events (Become E fuel name w)) + 1.
Proof.
  assert (Hhead : forall ns host ans logs,
            Forall (fun ev => isLog ev = true) logs ->
            forall p, (forall l msg, p (EvLog l msg) = false) ->
              (forall ev, identityEvent ns host ev = true -> p ev = false) ->
              p (EvConfigMapsGet ns name ans) = false ->
              Forall (fun ev => p ev = false)
                (preamble ns host ++ EvConfigMapsGet ns name ans :: logs)).
  { intros ns host ans logs Hlogs p Hp Hi Hg. apply Forall_app. split.
    - eapply identity_no; [exact Hi | apply preamble_identity].
    - constructor; [exact Hg | by apply logs_no]. }
  assert (Hs : forall ns host ev, identityEvent ns host ev = true -> isSleep ev = false)
    by (by intros ns host []).
  assert (Hc : forall ns host ev, identityEvent ns host ev = true -> isConflict ev = false)
    by (by intros ns host []).
  assert (Hk : forall ns host ev, identityEvent ns host ev = true -> isCreate ev = false)
    by (by intros ns host []).
  destruct (Become_path E fuel name w)
    as [r err0 ns host e0 Hres Hid Hlast Herr0 | ns host logs wf Hlogs | ns host err0 wf Hnf
        | ns host client owner ans logs wl Hlogs Hanswer]; cbn [events].
  - rewrite (filter_none isSleep), (count_none isConflict), (count_none isCreate);
      [split; [reflexivity | lia] | | |]; eapply identity_no; eauto.
  - rewrite (filter_none isSleep), (count_none isConflict), (count_none isCreate);
      [split; [reflexivity | lia] | | |]; apply Hhead; eauto.
  - rewrite (filter_none isSleep), (count_none isConflict), (count_none isCreate);
      [split; [reflexivity | lia] | | |];
      apply (Hhead ns host (Some err0) [EvLog ErrorLevel "unknown error trying to get ConfigMap"]);
      eauto; repeat constructor.
  - unfold prepend. cbn [events].
    destruct (LoopTrace_pacing _ _ _ _
                (createLoop_trace E fuel client ns (lockRecord name ns owner) wl))
      as (Hsl & Hcr & _).
    set (head := preamble ns host ++ EvConfigMapsGet ns name ans :: logs).
    assert (H1 : List.filter isSleep head = []) by (apply filter_none, Hhead; eauto).
    assert (H2 : count isConflict head = 0) by (apply count_none, Hhead; eauto).
    assert (H3 : count isCreate head = 0) by (apply count_none, Hhead; eauto).
    rewrite List.filter_app, !count_app, H1, H2, H3, Hsl.
    split; [reflexivity | cbn; lia].
Qed.

Lemma LoopTrace_record ns cm t r :
  LoopTrace ns cm t r ->
  Forall (fun ev => exists a, ev = EvConfigMapsCreate ns cm a) (List.filter isCreate t).
Proof.
  induction 1 as [| | err Hex | err t r Hex _ IH]; cbn; repeat constructor; eauto.
Qed.

(** X6. Once the caller's pod is known, every create of the run asks, in the
    namespace of the caller, for one record: a ConfigMap of the given name
    whose single owner reference is the pod of the caller, by name and
    UID. *)
Theorem creates_carry_the_pod (fuel : nat) (name : string) (w w' : World E)
    (ns : string) (client : Clientset E) (host : string) (myPod : corev1.Pod) :
  Identified E w ns client host myPod w' ->
  Forall (fun ev => exists a,
            ev = EvConfigMapsCreate ns
                   {| corev1.TypeMeta :=
                        {| metav1.APIVersion := "v1"; metav1.Kind := "ConfigMap" |};
                      corev1.ObjectMeta :=
                        {| metav1.Name := name;
                           metav1.Namespace := ns;
                           metav1.UID := "";
                           metav1.OwnerReferences :=
                             [{| metav1.RefAPIVersion := "v1";
                                 metav1.RefKind := "Pod";
                                 metav1.RefName := metav1.Name (corev1.PodMeta myPod);
                                 metav1.RefUID := metav1.UID (corev1.PodMeta myPod) |}]
                        |} |} a)
         (List.filter isCreate (events (Become E fuel name w))).
Proof.
  intros Hid.
  assert (Hhead : forall ans logs,
            Forall (fun ev => isLog ev = true) logs ->
            List.filter isCreate
              (preamble ns host ++ EvConfigMapsGet ns name ans :: logs) = []).
  { intros ans logs Hlogs. apply filter_none, Forall_app. split.
    - eapply identity_no; [| apply preamble_identity]. by intros [].
    - constructor; [reflexivity | by apply logs_no]. }
  pose proof (LoopTrace_record _ _ _ _
                (createLoop_trace E fuel client ns
                   (lockRecord name ns (podRef myPod)) w')) as Hloop.
  destruct (ConfigMapsGet E client ns name w') as [[record | err] w''] eqn:Hget.
  - rewrite (Become_found E fuel name w w' ns client host myPod Hid record w'' Hget).
    cbn zeta. destruct (existsb _ _); cbn [prepend events].
    + rewrite Hhead; [constructor | apply ownerLogs_logs].
    + rewrite List.filter_app, Hhead; [| apply ownerLogs_logs].
      apply (LoopTrace_record _ _ _ _
               (createLoop_trace E fuel client ns (lockRecord name ns (podRef myPod)) w'')).
  - destruct (apierrors.IsNotFound err) eqn:Hnf.
    + rewrite (Become_not_found E fuel name w w' ns client host myPod Hid err w'' Hget Hnf).
      cbn [prepend events]. rewrite List.filter_app.
      rewrite (Hhead (Some err) [EvLog InfoLevel "No pre-existing lock was found."]);
        [| repeat constructor].
      apply (LoopTrace_record _ _ _ _
               (createLoop_trace E fuel client ns (lockRecord name ns (podRef myPod)) w'')).
    + rewrite (Become_get_fatal E fuel name w w' ns client host myPod Hid err w'' Hget Hnf).
      cbn [events].
      rewrite (Hhead (Some err) [EvLog ErrorLevel "unknown error trying to get ConfigMap"]);
        [constructor | repeat constructor].
Qed.

End Pacing.

Lemma creates_carry_the_pod_witness :
  Forall (fun ev => exists a,
            ev = EvConfigMapsCreate "default"
                   (Fake.lock "default" "app-lock" [Fake.ownerOf "pod-a" "uid-a"]) a)
    (List.filter isCreate
       (events (Become Fake.env 1 "app-lock" (Fake.cluster "pod-a" "uid-a" [] [])))).
Proof.
  exact (creates_carry_the_pod Fake.env 1 "app-lock" _ _ _ _ _ _
           (cluster_identified "pod-a" "uid-a" [] [])).
Defined.

(** ** Fuel, and winning after a wait *)

Section Fuel.

Variable E : Env.



(** The creation loop wins at its first create that succeeds: [k] conflicts,
    [k] sleeps, then the create. *)
Lemma createLoop_wins (Inv : nat -> World E -> Prop) client ns cm k :
  (forall i w, i < k -> Inv i w ->
     exists err w1, ConfigMapsCreate E client ns cm w = (inr err, w1) /\
                    apierrors.IsAlreadyExists err = true /\
                    Inv (S i) (Sleep E time.Second w1)) ->
  (forall w, Inv k w ->
     exists created w1, ConfigMapsCreate E client ns cm w = (inl created, w1)) ->
  forall j i w fuel, i + j = k -> Inv i w -> j < fuel ->
    exists errs wf,
      createLoop E fuel client ns cm w =
        MkRun (Returned None) wf
          (concat (map (conflictTurn ns cm) errs) ++
           [EvConfigMapsCreate ns cm None; EvLog InfoLevel "Became the leader."]) /\
      length errs = j /\
      Forall (fun err => apierrors.IsAlreadyExists err = true) errs.
Proof.
  intros Hwait Hwin. induction j as [| j IH]; intros i w fuel Hk Hinv Hfuel.
  - destruct fuel as [| fuel]; [lia |].
    assert (i = k) as -> by lia.
    destruct (Hwin w Hinv) as (created & w1 & Hcreate).
    exists [], w1. rewrite createLoop_S, Hcreate. by repeat split.
  - destruct fuel as [| fuel]; [lia |].
    destruct (Hwait i w ltac:(lia) Hinv) as (err & w1 & Hcreate & Hex & Hinv1).
    destruct (IH (S i) _ fuel ltac:(lia) Hinv1 ltac:(lia))
      as (errs & wf & Hrun & Hlen & Herrs).
    exists (err :: errs), wf. rewrite createLoop_S, Hcreate, Hex, Hrun.
    repeat split; [by rewrite <- Hlen | by constructor].
Qed.

(** X8. Where the lock read at the start belongs to others, the first [k]
    creates meet AlreadyExists and the next one succeeds (the holder is gone
    and its lock with it), [Become] returns [nil] as soon as the fuel allows
    [k + 1] turns: it has issued [k + 1] creates and slept [k] times. *)
Theorem wins_once_the_lock_is_gone (Inv : nat -> World E -> Prop) (k fuel : nat)
    (name : string) (w w' w'' : World E) (ns : string) (client : Clientset E)
    (host : string) (myPod : corev1.Pod) (record : corev1.ConfigMap) :
  Identified E w ns client host myPod w' ->
  ConfigMapsGet E client ns name w' = (inl record, w'') ->
  Forall (fun ref => metav1.RefName ref <> metav1.Name (corev1.PodMeta myPod))
         (corev1.GetOwnerReferences record) ->
  Inv 0 w'' ->
  (forall i w, i < k -> Inv i w ->
     exists err w1,
       ConfigMapsCreate E client ns (lockRecord name ns (podRef myPod)) w = (inr err, w1) /\
       apierrors.IsAlreadyExists err = true /\
       Inv (S i) (Sleep E time.Second w1)) ->
  (forall w, Inv k w ->
     exists created w1,
       ConfigMapsCreate E client ns (lockRecord name ns (podRef myPod)) w
         = (inl created, w1)) ->
  k < fuel ->
  result (Become E fuel name w) = Returned None /\
  count isCreate (events (Become E fuel name w)) = k + 1 /\
  count isSleep (events (Become E fuel name w)) = k /\
  count isGet (events (Become E fuel name w)) = 1.
Proof.
  intros Hid Hget Hother Hinv Hwait Hwin Hfuel.
  destruct (createLoop_wins Inv client ns _ k Hwait Hwin k 0 w'' fuel
              eq_refl Hinv Hfuel) as (errs & wf & Hrun & Hlen & Herrs).
  rewrite (Become_found_others E fuel name w w' w'' ns client host myPod record
             Hid Hget Hother), Hrun.
  unfold prepend. cbn [result events].
  assert (Hturns : forall p, (forall err, count p (conflictTurn ns
                      (lockRecord name ns (podRef myPod)) err) = 1) ->
            count p (concat (map (conflictTurn ns (lockRecord name ns (podRef myPod))) errs))
              = length errs).
  { intros p Hp. clear -Hp. induction errs as [| e errs IH]; [reflexivity |].
    cbn [map concat length]. by rewrite count_app, Hp, IH. }
  assert (Hnone : forall p, (forall err, count p (conflictTurn ns
                      (lockRecord name ns (podRef myPod)) err) = 0) ->
            count p (concat (map (conflictTurn ns (lockRecord name ns (podRef myPod))) errs))
              = 0).
  { intros p Hp. clear -Hp. induction errs as [| e errs IH]; [reflexivity |].
    cbn [map concat]. by rewrite count_app, Hp, IH. }
  assert (Hlogs : forall p, (forall l msg, p (EvLog l msg) = false) ->
            count p (map fromLog (corev1.GetOwnerReferences record)) = 0).
  { intros p Hp. apply count_logs; [exact Hp |].
    apply List.Forall_forall. intros ev Hev. apply in_map_iff in Hev as (r & <- & _).
    reflexivity. }
  repeat split.
  - rewrite !count_app, count_cons, Hlogs, Hturns, Hlen by done. cbn. lia.
  - rewrite !count_app, count_cons, Hlogs, Hturns, Hlen by done. cbn. lia.
  - rewrite !count_app, count_cons, Hlogs, Hnone by done. reflexivity.
Qed.

End Fuel.


Lemma wins_once_the_lock_is_gone_witness :
  result (Become Fake.env 3 "app-lock" Fake.vacated) = Returned None /\
  count isCreate (events (Become Fake.env 3 "app-lock" Fake.vacated)) = 3 /\
  count isSleep (events (Become Fake.env 3 "app-lock" Fake.vacated)) = 2 /\
  count isGet (events (Become Fake.env 3 "app-lock" Fake.vacated)) = 1.
Proof.
  apply (wins_once_the_lock_is_gone Fake.env
           (fun i c =>
              Fake.rbac c = Fake.fullAccess /\
              match i with
              | 0 => Fake.schedule c = [Fake.Idle; Fake.DeleteConfigMap "default" "app-lock"]
                     /\ Fake.configMaps c = Fake.configMaps Fake.vacated
              | 1 => Fake.schedule c = [Fake.DeleteConfigMap "default" "app-lock"]
                     /\ Fake.configMaps c = Fake.configMaps Fake.vacated
              | _ => Fake.configMaps c =
                       delete ("default", "app-lock") (Fake.configMaps Fake.vacated)
              end)
           2 3 "app-lock" Fake.vacated Fake.vacated Fake.vacated
           "default" tt "pod-b" (Fake.pod "default" "pod-b" "uid-b")
           (Fake.lock "default" "app-lock" [Fake.ownerOf "pod-a" "uid-a"])).
  - apply cluster_identified.
  - reflexivity.
  - repeat constructor. discriminate.
  - repeat split.
  - intros i c Hi (Hrbac & Hi').
    exists (StatusError metav1.StatusReasonAlreadyExists "configmap already exists"), c.
    destruct i as [| [| i]]; [| | lia]; destruct Hi' as (Hsched & Hcm).
    + split; [| split; [reflexivity |]].
      * cbn. unfold Fake.configMapsCreate, Fake.allowed. rewrite Hrbac, Hcm. reflexivity.
      * cbn. rewrite Hsched, Hcm, Hrbac. repeat split.
    + split; [| split; [reflexivity |]].
      * cbn. unfold Fake.configMapsCreate, Fake.allowed. rewrite Hrbac, Hcm. reflexivity.
      * cbn. rewrite Hsched, Hcm, Hrbac. repeat split.
  - intros c (Hrbac & Hcm). eexists _, _.
    cbn. unfold Fake.configMapsCreate, Fake.allowed. rewrite Hrbac, Hcm. reflexivity.
  - lia.
Defined.

(** ** Failures on the way to the lock *)

Section Failures.

Variable E : Env.

Lemma getClientset_quiet (w : World E) :
  count isStoreCall (events (getClientset E w)) = 0.
Proof.
  rewrite getClientset_run.
  destruct (InClusterConfig E w) as [[c | err] w1]; [| reflexivity].
  by destruct (NewForConfig E c w1) as [[cs | err] w2].
Qed.

(** X9. When the client of the API server cannot be built, [Become] returns the
    error of [getClientset] in the state [getClientset] left: after the
    namespace it has done nothing but try to build the client, so neither the
    host name nor the API server was asked. *)
Theorem client_failure_stops (fuel : nat) (name : string) (w w1 : World E)
    (nsBytes : string) (err : error) :
  ReadFile E namespacePath w = (inl nsBytes, w1) ->
  result (getClientset E w1) = Returned (inr err) ->
  result (Become E fuel name w) = Returned (Some err) /\
  final (Become E fuel name w) = final (getClientset E w1) /\
  events (Become E fuel name w) =
    [EvLog InfoLevel "trying to become the leader";
     EvReadFile namespacePath None;
     EvLog InfoLevel ("found namespace: " +:+ strings.TrimSpace nsBytes)]
    ++ events (getClientset E w1) /\
  count isStoreCall (events (Become E fuel name w)) = 0.
Proof.
  intros Hread Hcs.
  assert (Hlog : logrus.Info "trying to become the leader" w =
                 MkRun (Returned tt) w [EvLog InfoLevel "trying to become the leader"])
    by reflexivity.
  pose proof (myNS_run E w) as Hns. rewrite Hread in Hns.
  pose proof (getClientset_quiet w1) as Hquiet.
  destruct (getClientset E w1) as [[r |] wf t] eqn:Hrun; cbn [result final events] in *;
    [| discriminate].
  injection Hcs as ->.
  assert (HB : Become E fuel name w =
            MkRun (Returned (Some err)) wf
              ([EvLog InfoLevel "trying to become the leader";
                EvReadFile namespacePath None;
                EvLog InfoLevel ("found namespace: " +:+ strings.TrimSpace nsBytes)] ++ t)).
  { unfold Become. bind_step Hlog. bind_step Hns. bind_step Hrun.
    unfold prepend, ret. cbn [result final events app]. by rewrite app_nil_r. }
  rewrite HB. cbn [result final events]. repeat split.
  rewrite count_app, Hquiet. reflexivity.
Qed.

(** X10. When the API server does not give the caller's pod, [Become] returns the
    error of that read, after one line in the log at error level, and the
    ConfigMaps are never asked for. *)
Theorem pod_failure_stops (fuel : nat) (name : string) (w w1 w2 w3 w4 w5 : World E)
    (nsBytes : string) (cfg : Config E) (client : Clientset E) (host : string)
    (err : lib_error) :
  ReadFile E namespacePath w = (inl nsBytes, w1) ->
  InClusterConfig E w1 = (inl cfg, w2) ->
  NewForConfig E cfg w2 = (inl client, w3) ->
  Hostname E w3 = (inl host, w4) ->
  PodsGet E client (strings.TrimSpace nsBytes) host w4 = (inr err, w5) ->
  Become E fuel name w =
    MkRun (Returned (Some (LibError err))) w5
      [EvLog InfoLevel "trying to become the leader";
       EvReadFile namespacePath None;
       EvLog InfoLevel ("found namespace: " +:+ strings.TrimSpace nsBytes);
       EvInClusterConfig None;
       EvNewForConfig None;
       EvHostname None;
       EvLog InfoLevel ("found hostname: " +:+ host);
       EvPodsGet (strings.TrimSpace nsBytes) host (Some err);
       EvLog ErrorLevel "failed to get pod"] /\
  count isLockCall (events (Become E fuel name w)) = 0.
Proof.
  intros H1 H2 H3 H4 H5.
  assert (Hlog : logrus.Info "trying to become the leader" w =
                 MkRun (Returned tt) w [EvLog InfoLevel "trying to become the leader"])
    by reflexivity.
  pose proof (myNS_run E w) as Hns. rewrite H1 in Hns.
  pose proof (getClientset_run E w1) as Hcs. rewrite H2, H3 in Hcs.
  pose proof (myOwnerRef_run E client (strings.TrimSpace nsBytes) w3) as Hor.
  rewrite H4, H5 in Hor.
  assert (HB : Become E fuel name w =
    MkRun (Returned (Some (LibError err))) w5
      [EvLog InfoLevel "trying to become the leader";
       EvReadFile namespacePath None;
       EvLog InfoLevel ("found namespace: " +:+ strings.TrimSpace nsBytes);
       EvInClusterConfig None;
       EvNewForConfig None;
       EvHostname None;
       EvLog InfoLevel ("found hostname: " +:+ host);
       EvPodsGet (strings.TrimSpace nsBytes) host (Some err);
       EvLog ErrorLevel "failed to get pod"]).
  { unfold Become. bind_step Hlog. bind_step Hns. bind_step Hcs. bind_step Hor.
    reflexivity. }
  rewrite HB. by split.
Qed.

(** X11. The ownership check is a function of the names alone: it answers
    whether some reference carries the name of the caller's, leaves the state
    as it found it, and only writes log lines, at most one for each reference
    and one more. *)
Theorem checkOwners_is_pure (owner : metav1.OwnerReference)
    (refs : list metav1.OwnerReference) (w : World E) :
  result (checkOwners E owner refs w) =
    Returned (bool_decide (Exists (fun ref => metav1.RefName ref = metav1.RefName owner) refs)) /\
  final (checkOwners E owner refs w) = w /\
  Forall (fun ev => isLog ev = true) (events (checkOwners E owner refs w)) /\
  length (events (checkOwners E owner refs w)) <= length refs + 1.
Proof.
  rewrite checkOwners_run. cbn [result final events].
  split; [| split; [reflexivity | split; [apply ownerLogs_logs |]]].
  - f_equal. induction refs as [| r refs IH]; [reflexivity |].
    cbn [existsb]. rewrite IH. unfold sameName.
    destruct (String.eqb_spec (metav1.RefName r) (metav1.RefName owner)) as [Heq | Hne].
    + symmetry. apply bool_decide_eq_true_2. by left.
    + cbn. apply bool_decide_ext. rewrite Exists_cons. tauto.
  - induction refs as [| r refs IH]; cbn [ownerLogs length]; [lia |].
    destruct (sameName owner r); cbn [length]; lia.
Qed.

End Failures.

Lemma client_failure_stops_witness :
  result (Become Fake.env 1 "app-lock"
            (Fake.withNsFile "default" (Fake.local "laptop")))
    = Returned (Some (LibError (errorString "unable to load in-cluster configuration"))).
Proof.
  apply (client_failure_stops Fake.env 1 "app-lock"
           (Fake.withNsFile "default" (Fake.local "laptop"))
           (Fake.withNsFile "default" (Fake.local "laptop")) "default").
  - reflexivity.
  - reflexivity.
Defined.

Lemma pod_failure_stops_witness :
  count isLockCall
    (events (Become Fake.env 1 "app-lock"
               (Fake.withRbac [] (Fake.cluster "pod-a" "uid-a" [] [])))) = 0.
Proof.
  eapply (pod_failure_stops Fake.env 1 "app-lock" _ _ _ _ _ _ "default
" tt tt "pod-a" Fake.forbidden); reflexivity.
Defined.
